(** * The create-document-button pipeline of ggrc-client

    Shallow embedding of the view model of
    [src/ggrc-client/js/components/create-document-button/create-document-button.js]:
    [mapDocuments], [checkDocumentsExist], [makeAdmin], [useExistingDocuments],
    [createDocuments], [refreshPermissionsAndMap] and [showConfirm].

    jQuery deferreds are modelled by their final state (pending for ever,
    resolved with an argument list, rejected); the collaborators the
    component calls (the two POST end points, the confirmation modal, the
    persistence layer and the permission cache) are the fields of a [World];
    every call into a collaborator and every dispatched event is recorded in
    a trace.  The trace lists the effects of the existing-document branch
    before those of the new-document branch; in a browser the two branches
    interleave, and no statement below depends on the relative order of
    effects that belong to different branches. *)

From Stdlib Require Import List String Bool Arith Lia Permutation.
Import ListNotations.
Open Scope string_scope.
Open Scope list_scope.
#[local] Set Warnings "-register-all".
#[local] Open Scope nat_scope.

(** ** Data *)

(** A picked file, as the gdrive picker hands it over: [file.id], [file.title]. *)
Record File := mkFile { id : string; title : string }.

(** [new Context({id: null})] *)
Record Context := mkContext { context_id : option nat }.

(** The attributes a [Document] model is constructed from. *)
Record DocumentAttrs := mkAttrs {
  attr_id : option nat;
  attr_title : string;
  attr_source_gdrive_id : string;
  attr_context : option Context
}.

(** [new Document(attrs)] *)
Inductive Document := new_Document (attrs : DocumentAttrs).

(** One entry of the answer of [/api/document/documents_exist]:
    [status.gdrive_id], [status.exists], [status.object].  The code reads
    [object] only on entries whose [exists] is true. *)
Record Status := mkStatus {
  gdrive_id : string;
  exists_ : bool;
  object : DocumentAttrs
}.

(** [parentInstance.type], [parentInstance.title] *)
Record Instance := mkInstance { instance_type : string; instance_title : string }.

Record ViewModel := mkViewModel { parentInstance : Instance }.

(** The JavaScript values that travel through the deferreds of the component. *)
Inductive value :=
| VUndefined
| VDocument (d : Document)
| VArray (items : list value).

Inductive error :=
| AjaxFailure (url : string)
| SaveFailure
| Dismissed
| TypeError.

(** Final state of a promise carrying an [A]. *)
Inductive outcome (A : Type) :=
| Pending
| Resolved (a : A)
| Rejected (e : error).
Arguments Pending {A}.
Arguments Resolved {A} a.
Arguments Rejected {A} e.

(** A jQuery deferred resolves with an argument list. *)
Definition deferred := outcome (list value).

(** A synchronous call either returns or throws. *)
Inductive completion (A : Type) :=
| Return (a : A)
| Throw (e : error).
Arguments Return {A} a.
Arguments Throw {A} e.

(** ** Effects *)

Inductive target := OnParentInstance | OnViewModel.

Inductive event_type :=
| BEFORE_DOCUMENT_CREATE
| DOCUMENT_CREATE_FAILED
| MAP_OBJECTS (objects : list value).

Inductive effect :=
| Post (url : string) (gdrive_ids : list string)
| Save (instance : Document)
| RefreshPermissions
| Confirm (docsCount : nat) (phrase : string) (parent : Instance)
| Dispatch (on : target) (ev : event_type).

Definition trace := list effect.

(** The answer of the user to the confirmation modal. *)
Inductive answer := Proceed | Cancel | Unanswered.

(** The collaborators.  [then_catches] tells whether a handler that throws
    inside [.then] rejects the chained promise (jQuery 3) or lets the
    exception escape and leaves the chained promise pending (jQuery 1.8
    to 2.x). *)
Record World := mkWorld {
  then_catches : bool;
  documents_exist : list string -> outcome (list Status);
  make_admin : list string -> outcome unit;
  confirm : nat -> answer;
  save : Document -> outcome Document;
  refreshPermissions : outcome unit
}.

Definition documents_exist_url := "/api/document/documents_exist".
Definition make_admin_url := "/api/document/make_admin".

(** ** jQuery and can-util primitives *)

(** [dfd.resolve(...)]: settles a pending deferred, does nothing otherwise. *)
Definition resolve (dfd : deferred) (args : list value) : deferred :=
  match dfd with
  | Pending => Resolved args
  | _ => dfd
  end.

(** What [$.when] hands over for one subordinate: its single argument, or
    the array of its arguments when there are several. *)
Definition when_value (args : list value) : value :=
  match args with
  | [] => VUndefined
  | [v] => v
  | _ => VArray args
  end.

Fixpoint first_rejection (ds : list deferred) : option error :=
  match ds with
  | [] => None
  | Rejected e :: _ => Some e
  | _ :: rest => first_rejection rest
  end.

Fixpoint all_resolved (ds : list deferred) : option (list (list value)) :=
  match ds with
  | [] => Some []
  | Resolved args :: rest =>
      match all_resolved rest with
      | Some argss => Some (args :: argss)
      | None => None
      end
  | _ :: _ => None
  end.

(** [$.when(...ds)].  With one subordinate the result is that subordinate;
    with several it rejects as soon as one of them does (the model reports
    the leftmost rejection) and resolves once all have. *)
Definition when (ds : list deferred) : deferred :=
  match ds with
  | [] => Resolved []
  | [d] => d
  | _ =>
      match first_rejection ds with
      | Some e => Rejected e
      | None =>
          match all_resolved ds with
          | Some argss => Resolved (map when_value argss)
          | None => Pending
          end
      end
  end.

(** [makeArray] of can-util: an array is copied, [undefined] gives the
    empty array, any other value a one-element array. *)
Definition makeArray (v : value) : list value :=
  match v with
  | VArray items => items
  | VUndefined => []
  | _ => [v]
  end.

(** The promise of [instance.save()]: resolves with the saved instance. *)
Definition save_promise (w : World) (instance : Document) : deferred :=
  match save w instance with
  | Resolved saved => Resolved [VDocument saved]
  | Rejected e => Rejected e
  | Pending => Pending
  end.

(** The instance [createDocuments] builds for a file:
    [new Document({title: file.title, source_gdrive_id: file.id,
    context: new Context({id: null})})]. *)
Definition instance_of (file : File) : Document :=
  new_Document {| attr_id := None;
                  attr_title := title file;
                  attr_source_gdrive_id := id file;
                  attr_context := Some (mkContext None) |}.

(** ** The view model *)

Section ViewModelMethods.

Variable this : ViewModel.
Variable w : World.

(** [checkDocumentsExist(files)] *)
Definition checkDocumentsExist (files : list File)
  : trace * outcome (list Status) :=
  let gdrive_ids := map id files in
  ([Post documents_exist_url gdrive_ids], documents_exist w gdrive_ids).

(** [makeAdmin(documents)] *)
Definition makeAdmin (documents : list Status) : trace * outcome unit :=
  let gdrive_ids := map gdrive_id documents in
  ([Post make_admin_url gdrive_ids], make_admin w gdrive_ids).

(** [showConfirm(documents)]: the modal resolves [confirmation] on proceed
    and rejects it on cancel. *)
Definition showConfirm (documents : list Status) : trace * outcome unit :=
  let docsCount := List.length documents in
  let phrase := if 1 <? docsCount then "files are" else "file is" in
  ([Confirm docsCount phrase (parentInstance this)],
   match confirm w docsCount with
   | Proceed => Resolved tt
   | Cancel => Rejected Dismissed
   | Unanswered => Pending
   end).

(** [useExistingDocuments(documents)].  [dfd] is the deferred the method
    returns; the two [.then] of the chain act on it. *)
Definition useExistingDocuments (documents : list Status) : trace * deferred :=
  let dfd : deferred := Pending in
  if List.length documents =? 0 then ([], resolve dfd [VArray []])
  else
    let '(log0, confirmation) := showConfirm documents in
    (* .then(() => this.makeAdmin(documents), () => dfd.resolve([])) *)
    let '(log1, dfd1, chained) :=
      match confirmation with
      | Resolved _ =>
          let '(log, granted) := makeAdmin documents in (log, dfd, granted)
      | Rejected _ =>
          let dfd' := resolve dfd [VArray []] in
          (* the handler returns [dfd], which the chained promise follows *)
          ([], dfd',
           match dfd' with
           | Resolved _ => Resolved tt
           | Rejected e => Rejected e
           | Pending => Pending
           end)
      | Pending => ([], dfd, Pending)
      end in
    (* .then(() => { ...; dfd.resolve(docs); }) *)
    let dfd2 :=
      match chained with
      | Resolved _ =>
          let docs := map (fun doc => VDocument (new_Document (object doc))) documents in
          resolve dfd1 [VArray docs]
      | _ => dfd1
      end in
    (log0 ++ log1, dfd2).

(** The callback of [files.map] in [createDocuments], up to the call of
    [save]; reading [file.title] of [undefined] throws. *)
Definition create_one (file : option File) : completion Document :=
  match file with
  | Some file => Return (instance_of file)
  | None => Throw TypeError
  end.

(** [files.map((file) => { ...; return instance.save(); })] *)
Fixpoint save_each (files : list (option File))
  : trace * completion (list deferred) :=
  match files with
  | [] => ([], Return [])
  | file :: rest =>
      match create_one file with
      | Throw e => ([], Throw e)
      | Return instance =>
          let dfdDoc := save_promise w instance in
          match save_each rest with
          | (log, Return dfdDocs) => (Save instance :: log, Return (dfdDoc :: dfdDocs))
          | (log, Throw e) => (Save instance :: log, Throw e)
          end
      end
  end.

(** [createDocuments(files)] *)
Definition createDocuments (files : list (option File))
  : trace * completion deferred :=
  if List.length files =? 0 then ([], Return (Resolved [VArray []]))
  else
    let log0 := [Dispatch OnParentInstance BEFORE_DOCUMENT_CREATE] in
    match save_each files with
    | (log1, Throw e) => (log0 ++ log1, Throw e)
    | (log1, Return dfdDocs) =>
        let all := when dfdDocs in
        (* .fail(() => dispatch(DOCUMENT_CREATE_FAILED)) returns [all] *)
        let log2 :=
          match all with
          | Rejected _ => [Dispatch OnParentInstance DOCUMENT_CREATE_FAILED]
          | _ => []
          end in
        (log0 ++ log1 ++ log2, Return all)
    end.

(** [refreshPermissionsAndMap(documents)]; the method returns nothing. *)
Definition refreshPermissionsAndMap (documents : list value) : trace :=
  let '(log0, dfd) :=
    if List.length documents =? 0 then ([], Resolved tt)
    else ([RefreshPermissions], refreshPermissions w) in
  match dfd with
  | Resolved _ => log0 ++ [Dispatch OnViewModel (MAP_OBJECTS documents)]
  | _ => log0
  end.

(** The body of [statuses.forEach] in [mapDocuments], on the pair
    [(newFiles, existingDocuments)]. *)
Definition classify (files : list File)
  (lists : list (option File) * list Status) (status : Status)
  : list (option File) * list Status :=
  let '(newFiles, existingDocuments) := lists in
  if exists_ status then (newFiles, existingDocuments ++ [status])
  else
    let file := find (fun file => String.eqb (id file) (gdrive_id status)) files in
    (newFiles ++ [file], existingDocuments).

Definition partition_statuses (files : list File) (statuses : list Status)
  : list (option File) * list Status :=
  fold_left (classify files) statuses ([], []).

(** The callback of [$.when(existing, created).then(...)]. *)
Definition mergeDocuments (existingDocs newDocs : value) : list value :=
  makeArray existingDocs ++ makeArray newDocs.

(** The first [.then] callback of [mapDocuments]: partition, start both
    branches, join and merge.  The promise it returns resolves with the
    merged document list. *)
Definition onStatuses (files : list File) (statuses : list Status)
  : trace * completion (outcome (list value)) :=
  let '(newFiles, existingDocuments) := partition_statuses files statuses in
  let '(log1, existing) := useExistingDocuments existingDocuments in
  match createDocuments newFiles with
  | (log2, Throw e) => (log1 ++ log2, Throw e)
  | (log2, Return created) =>
      (log1 ++ log2,
       Return
         match when [existing; created] with
         | Resolved [existingDocs; newDocs] =>
             Resolved (mergeDocuments existingDocs newDocs)
         | Resolved _ => Pending (* not reached: two subordinates, two values *)
         | Rejected e => Rejected e
         | Pending => Pending
         end)
  end.

(** [mapDocuments(files)]: the trace of the run and the promise it returns. *)
Definition mapDocuments (files : list File) : trace * deferred :=
  let '(log0, statuses) := checkDocumentsExist files in
  match statuses with
  | Resolved statuses =>
      match onStatuses files statuses with
      | (log1, Throw e) =>
          (log0 ++ log1, if then_catches w then Rejected e else Pending)
      | (log1, Return (Resolved documents)) =>
          let log2 := refreshPermissionsAndMap documents in
          (log0 ++ log1 ++ log2, Resolved [VUndefined])
      | (log1, Return (Rejected e)) => (log0 ++ log1, Rejected e)
      | (log1, Return Pending) => (log0 ++ log1, Pending)
      end
  | Rejected e => (log0, Rejected e)
  | Pending => (log0, Pending)
  end.

End ViewModelMethods.

(** The statuses [forEach] sends to [newFiles], and the file it looks up
    for each. *)
Definition lookup (files : list File) (status : Status) : option File :=
  find (fun file => String.eqb (id file) (gdrive_id status)) files.

Definition missing (statuses : list Status) : list Status :=
  filter (fun status => negb (exists_ status)) statuses.

(** ** Observations on traces *)

Definition target_eqb (a b : target) : bool :=
  match a, b with
  | OnParentInstance, OnParentInstance => true
  | OnViewModel, OnViewModel => true
  | _, _ => false
  end.

(** Calls that go over the network: the two POST end points, [save] and
    the permission refresh. *)
Definition is_network (e : effect) : bool :=
  match e with
  | Post _ _ | Save _ | RefreshPermissions => true
  | _ => false
  end.

Definition is_confirm (e : effect) : bool :=
  match e with
  | Confirm _ _ _ => true
  | _ => false
  end.

Definition is_save (e : effect) : bool :=
  match e with
  | Save _ => true
  | _ => false
  end.

Definition is_post_to (url : string) (e : effect) : bool :=
  match e with
  | Post url' _ => String.eqb url url'
  | _ => false
  end.

(** The payloads of the [MAP_OBJECTS] events dispatched on [on], in order. *)
Fixpoint map_objects_on (on : target) (log : trace) : list (list value) :=
  match log with
  | [] => []
  | Dispatch on' (MAP_OBJECTS objects) :: rest =>
      if target_eqb on on' then objects :: map_objects_on on rest
      else map_objects_on on rest
  | _ :: rest => map_objects_on on rest
  end.

(** The reading of the partition step in section 4.2 of the specification:
    the existing-documents list holds exactly the statuses with
    [exists = true], the new-files list exactly the files whose id has no
    status with [exists = true]. *)
Definition partition_as_specified (files : list File) (statuses : list Status) : Prop :=
  let '(newFiles, existingDocuments) := partition_statuses files statuses in
  (forall status, In status existingDocuments <->
                  In status statuses /\ exists_ status = true) /\
  (forall file, In (Some file) newFiles <->
                In file files /\
                forall status, In status statuses -> exists_ status = true ->
                               gdrive_id status <> id file).

(** The reading of the finalizer on the empty list in section 4.6 of the
    specification: no permission refresh, and one objects-mapped
    notification on the parent entity, carrying the empty list. *)
Definition empty_finalize_as_specified (w : World) : Prop :=
  ~ In RefreshPermissions (refreshPermissionsAndMap w []) /\
  map_objects_on OnParentInstance (refreshPermissionsAndMap w []) = [[]].

(** The reading of the run on no files in section 8 of the specification:
    the run completes with one empty mapping notification, without any
    network call and without a prompt. *)
Definition empty_run_as_specified (this : ViewModel) (w : World) : Prop :=
  snd (mapDocuments this w []) = Resolved [VUndefined] /\
  map_objects_on OnViewModel (fst (mapDocuments this w [])) = [[]] /\
  filter is_network (fst (mapDocuments this w [])) = [] /\
  filter is_confirm (fst (mapDocuments this w [])) = [].

(** The reading of a failed permission refresh in section 7 of the
    specification: a run that reaches the finalizer with a non-empty list
    and whose permission refresh fails returns a rejected promise. *)
Definition refresh_failure_as_specified (this : ViewModel) (w : World)
    (files : list File) : Prop :=
  forall statuses documents e,
    documents_exist w (map id files) = Resolved statuses ->
    snd (onStatuses this w files statuses) = Return (Resolved documents) ->
    documents <> [] ->
    refreshPermissions w = Rejected e ->
    exists e', snd (mapDocuments this w files) = Rejected e'.

(** The existing documents the current user was made an admin of: all of
    them when the user proceeds and the grant succeeds, none otherwise. *)
Definition admitted (w : World) (existingDocuments : list Status) : list Status :=
  match confirm w (List.length existingDocuments),
        make_admin w (map gdrive_id existingDocuments) with
  | Proceed, Resolved _ => existingDocuments
  | _, _ => []
  end.

(** The new files whose document was saved. *)
Definition created (w : World) (newFiles : list (option File)) : list File :=
  flat_map (fun file =>
              match file with
              | Some file =>
                  match save w (instance_of file) with
                  | Resolved _ => [file]
                  | _ => []
                  end
              | None => []
              end) newFiles.

(** Modelled from the spec: the existence service behind
    [/api/document/documents_exist], which runs on the server and is not
    part of the component.  Sections 3 and 4.1: it answers with one status
    per queried file ("Result length equals input length"). *)
Definition one_status_per_file (files : list File) (statuses : list Status) : Prop :=
  List.length statuses = List.length files.

(** The reading of the new-document branch in section 4.4 of the
    specification: when every save of a non-empty list of files succeeds,
    the promise of [createDocuments] resolves with the list of the saved
    documents, in the order of the files. *)
Definition new_branch_as_specified (w : World) (files : list File) : Prop :=
  files <> [] ->
  forall docs,
    Forall2 (fun file doc => save w (instance_of file) = Resolved doc) files docs ->
    snd (createDocuments w (map Some files))
      = Return (Resolved [VArray (map VDocument docs)]).

(** ** Sample data *)

Definition fileA := mkFile "A" "a.txt".
Definition fileA' := mkFile "A" "copy of a.txt".
Definition fileB := mkFile "B" "b.txt".
Definition fileC := mkFile "C" "c.txt".

Definition attrsA := mkAttrs (Some 7) "a.txt" "A" None.
Definition attrsB := mkAttrs (Some 8) "b.txt" "B" None.
Definition no_attrs := mkAttrs None "" "" None.

Definition control := mkViewModel (mkInstance "Control" "Access reviews").

(** The persistence layer gives every saved document the id 1. *)
Definition saved (instance : Document) : Document :=
  match instance with
  | new_Document a =>
      new_Document (mkAttrs (Some 1) (attr_title a) (attr_source_gdrive_id a) (attr_context a))
  end.

(** A world that answers every existence query with [statuses], the modal
    with [ans], the admin grant with [admin], every [save] with [saving]
    and the permission refresh with [refresh]. *)
Definition world_of (statuses : list Status) (ans : answer)
    (admin : outcome unit) (saving : Document -> outcome Document)
    (refresh : outcome unit) : World :=
  mkWorld true (fun _ => Resolved statuses) (fun _ => admin) (fun _ => ans)
          saving refresh.

Definition saves (instance : Document) : outcome Document := Resolved (saved instance).

Definition save_fails (instance : Document) : outcome Document := Rejected SaveFailure.

(** ** The caller: [openPicker] *)

(** [promise.state()] of jQuery. *)
Inductive state := StPending | StResolved | StRejected.

(** What [openPicker] does: it opens the picker, dispatches ['cancel'] on
    the view model, or runs [mapDocuments]. *)
Inductive picker_effect :=
| UploadFiles
| DispatchCancel
| FromRun (e : effect).

(** [openPicker()], [picked] being the final state of the promise of
    [uploadFiles()].  Neither handler returns a value: the promise of
    [mapDocuments] is dropped.  A failure handler that returns a plain
    value resolves the chained promise in jQuery 3 and rejects it in
    jQuery 1.8 to 2.x. *)
Definition openPicker (this : ViewModel) (w : World) (picked : outcome (list File))
  : list picker_effect * state :=
  match picked with
  | Resolved files =>
      let '(log, _) := mapDocuments this w files in
      (UploadFiles :: map FromRun log, StResolved)
  | Rejected _ =>
      ([UploadFiles; DispatchCancel],
       if then_catches w then StResolved else StRejected)
  | Pending => ([UploadFiles], StPending)
  end.

(** The effects of the pipeline among those of [openPicker]. *)
Fixpoint run_effects (log : list picker_effect) : trace :=
  match log with
  | [] => []
  | FromRun e :: rest => e :: run_effects rest
  | _ :: rest => run_effects rest
  end.

(** ** Further observations *)

(** The entries in front of the first [undefined] of a list of files. *)
Fixpoint defined_prefix (files : list (option File)) : list File :=
  match files with
  | Some file :: rest => file :: defined_prefix rest
  | _ => []
  end.

Definition is_create_failed (e : effect) : bool :=
  match e with
  | Dispatch _ DOCUMENT_CREATE_FAILED => true
  | _ => false
  end.

Definition is_before_create (e : effect) : bool :=
  match e with
  | Dispatch _ BEFORE_DOCUMENT_CREATE => true
  | _ => false
  end.

Definition is_dispatch_on (on : target) (e : effect) : bool :=
  match e with
  | Dispatch on' _ => target_eqb on on'
  | _ => false
  end.

Definition is_refresh (e : effect) : bool :=
  match e with
  | RefreshPermissions => true
  | _ => false
  end.

(** The document [useExistingDocuments] wraps around a matched status:
    [new Document(doc.object)]. *)
Definition existing_document (doc : Status) : value :=
  VDocument (new_Document (object doc)).

(** ** The mapped-controls popover

    The view model of
    [src/ggrc/assets/javascripts/components/assessment/mapped-objects/mapped-controls-popover.js]:
    [setItems] and [loadItems]. *)

(** The two list attributes a query can name through its [type]. *)
Inductive list_attr := Objectives | Regulations.

(** [item.revision.content] is kept opaque. *)
Definition content := string.

(** One entry of [item.Snapshot.values]. *)
Record SnapshotValue := mkValue { revision_content : content }.

(** One entry of the answer of the query API: [item.Snapshot.values]. *)
Record ResponseItem := mkItem { Snapshot_values : list SnapshotValue }.

(** The attributes of the view model.  [queries] holds the [type] of each
    query ([[objectives; regulations]] by default); the queries are taken
    to name list attributes of the view model. *)
Record Popover := mkPopover {
  instanceId : nat;
  queries : list list_attr;
  objectives : list content;
  regulations : list content;
  isLoading : bool
}.

Definition defaultResponseArr : list ResponseItem := [mkItem []; mkItem []].

Definition default_queries : list list_attr := [Objectives; Regulations].

(** [this.attr(type).replace(items)] *)
Definition replace_attr (type : list_attr) (items : list content) (vm : Popover)
  : Popover :=
  match type with
  | Objectives =>
      mkPopover (instanceId vm) (queries vm) items (regulations vm) (isLoading vm)
  | Regulations =>
      mkPopover (instanceId vm) (queries vm) (objectives vm) items (isLoading vm)
  end.

(** [this.attr('isLoading', value)] *)
Definition set_isLoading (value : bool) (vm : Popover) : Popover :=
  mkPopover (instanceId vm) (queries vm) (objectives vm) (regulations vm) value.

(** The [forEach] of [setItems], from index [i] on.  Reading [.type] of
    [queries[i]] throws when there is no such query; what the loop has
    replaced before stays replaced. *)
Fixpoint setItems_from (i : nat) (responseArr : list ResponseItem) (vm : Popover)
  : Popover * completion unit :=
  match responseArr with
  | [] => (vm, Return tt)
  | item :: rest =>
      match nth_error (queries vm) i with
      | None => (vm, Throw TypeError)
      | Some type =>
          setItems_from (S i) rest
            (replace_attr type (map revision_content (Snapshot_values item)) vm)
      end
  end.

(** [setItems(responseArr)] *)
Definition setItems (responseArr : list ResponseItem) (vm : Popover)
  : Popover * completion unit :=
  setItems_from 0 responseArr vm.

Inductive popover_effect :=
| MakeRequest (id : nat)
| ConsoleWarn.

(** [loadItems()], [makeRequest] giving the final state of the request for
    the snapshots of an instance.  The result holds the requests and
    warnings issued, the attributes at the end, and whether an exception
    escaped: from [loadItems] itself when there is no instance id, from
    the callbacks of the request otherwise, in which case the [always]
    callback that follows them in the callback list is not run. *)
Definition loadItems (makeRequest : nat -> outcome (list ResponseItem)) (vm : Popover)
  : list popover_effect * (Popover * completion unit) :=
  let id := instanceId vm in
  if id =? 0 then ([], setItems defaultResponseArr vm)
  else
    let loading := set_isLoading true vm in
    match makeRequest id with
    | Resolved responseArr =>
        ([MakeRequest id],
         match setItems responseArr loading with
         | (vm', Return _) => (set_isLoading false vm', Return tt)
         | (vm', Throw e) => (vm', Throw e)
         end)
    | Rejected _ =>
        ([MakeRequest id; ConsoleWarn],
         match setItems defaultResponseArr loading with
         | (vm', Return _) => (set_isLoading false vm', Return tt)
         | (vm', Throw e) => (vm', Throw e)
         end)
    | Pending => ([MakeRequest id], (loading, Return tt))
    end.

(** The contents of one entry of the answer. *)
Definition contents (item : ResponseItem) : list content :=
  map revision_content (Snapshot_values item).

(** * Properties *)

(** ** The partition step *)

Lemma fold_classify files statuses : forall newFiles existingDocuments,
  fold_left (classify files) statuses (newFiles, existingDocuments) =
  (newFiles ++ map (lookup files) (missing statuses),
   existingDocuments ++ filter exists_ statuses).
Proof.
  induction statuses as [|s statuses IH]; intros newFiles existingDocuments; simpl.
  - now rewrite !app_nil_r.
  - unfold missing in *. destruct (exists_ s) eqn:Hs; simpl; rewrite IH.
    + now rewrite <- app_assoc.
    + now rewrite <- app_assoc.
Qed.

Lemma partition_statuses_eq files statuses :
  partition_statuses files statuses =
  (map (lookup files) (missing statuses), filter exists_ statuses).
Proof. unfold partition_statuses. now rewrite fold_classify. Qed.

Lemma lookup_Some files status file :
  lookup files status = Some file -> In file files /\ id file = gdrive_id status.
Proof.
  unfold lookup. intros H. apply find_some in H as [Hin Heq].
  split; [assumption | now apply String.eqb_eq].
Qed.

Lemma lookup_None files status :
  lookup files status = None -> forall file, In file files -> id file <> gdrive_id status.
Proof.
  unfold lookup. intros H file Hin.
  apply String.eqb_neq. exact (find_none _ _ H file Hin).
Qed.

Lemma lookup_found files status file :
  In file files -> id file = gdrive_id status ->
  exists file', lookup files status = Some file'.
Proof.
  intros Hin Heq. destruct (lookup files status) as [file'|] eqn:H.
  - now exists file'.
  - exfalso. exact (lookup_None _ _ H file Hin Heq).
Qed.

Lemma in_missing statuses status :
  In status (missing statuses) <-> In status statuses /\ exists_ status = false.
Proof.
  unfold missing. rewrite filter_In. split; intros [H1 H2]; split; trivial.
  - now destruct (exists_ status).
  - now rewrite H2.
Qed.

Lemma NoDup_map_inj {A B} (g : A -> B) (l : list A) :
  NoDup (map g l) -> forall a b, In a l -> In b l -> g a = g b -> a = b.
Proof.
  induction l as [|x l IH]; simpl; intros Hnd a b Ha Hb Hg; [contradiction|].
  inversion Hnd as [|? ? Hx Hl]; subst.
  destruct Ha as [->|Ha], Hb as [->|Hb]; trivial.
  - exfalso. apply Hx. rewrite Hg. now apply in_map.
  - exfalso. apply Hx. rewrite <- Hg. now apply in_map.
  - now apply IH.
Qed.

(** C6, as stated, fails: two picked files with the same id, one status per
    file; the second file has no status with [exists = true], yet the
    new-files list holds the first file twice and the second never. *)
Lemma partition_as_specified_fails :
  ~ partition_as_specified [fileA; fileA']
      [mkStatus "A" false no_attrs; mkStatus "A" false no_attrs].
Proof.
  unfold partition_as_specified. rewrite partition_statuses_eq. simpl.
  intros [_ H]. destruct (H fileA') as [_ Hback].
  assert (Hin : In (Some fileA') [Some fileA; Some fileA]).
  { apply Hback. split.
    - right. now left.
    - intros status [<-|[<-|[]]]; discriminate. }
  destruct Hin as [Heq|[Heq|[]]]; discriminate Heq.
Qed.

(** C6 (amended): the partition step is a function of the two lists alone
    (it has no trace).  The existing-documents list is the sub-list of the
    statuses with [exists = true], in order; the new-files list holds, for
    each status with [exists = false] in order, the first file whose id is
    the status's [gdrive_id].  When the file ids are pairwise distinct and
    the statuses carry exactly the file ids, one status per file, the
    new-files list holds no [undefined] and exactly the files whose id has
    no status with [exists = true]. *)
Theorem partition_classifies (files : list File) (statuses : list Status) :
  partition_statuses files statuses =
    (map (lookup files) (missing statuses), filter exists_ statuses) /\
  (forall status, In status (snd (partition_statuses files statuses)) <->
                  In status statuses /\ exists_ status = true) /\
  (NoDup (map id files) ->
   Permutation (map gdrive_id statuses) (map id files) ->
   ~ In None (fst (partition_statuses files statuses)) /\
   forall file, In (Some file) (fst (partition_statuses files statuses)) <->
                In file files /\
                forall status, In status statuses -> exists_ status = true ->
                               gdrive_id status <> id file).
Proof.
  rewrite partition_statuses_eq. simpl. split; [reflexivity|]. split.
  - intros status. now rewrite filter_In.
  - intros Hnd Hperm.
    assert (Hnd' : NoDup (map gdrive_id statuses)).
    { apply Permutation_NoDup with (l := map id files); [now symmetry | assumption]. }
    split.
    + intros Hin. apply in_map_iff in Hin as [s [Hs Hmiss]].
      apply in_missing in Hmiss as [Hin _].
      assert (Hid : In (gdrive_id s) (map id files)).
      { apply Permutation_in with (l := map gdrive_id statuses); trivial.
        now apply in_map. }
      apply in_map_iff in Hid as [f [Hf Hinf]].
      exact (lookup_None _ _ Hs f Hinf Hf).
    + intros file. split.
      * intros Hin. apply in_map_iff in Hin as [s [Hs Hmiss]].
        apply in_missing in Hmiss as [Hin Hex].
        apply lookup_Some in Hs as [Hfile Hid]. split; trivial.
        intros s' Hin' Hex' Heq.
        assert (s' = s).
        { apply (NoDup_map_inj gdrive_id statuses Hnd'); trivial. congruence. }
        subst s'. congruence.
      * intros [Hfile Hnone].
        assert (Hid : In (id file) (map gdrive_id statuses)).
        { apply Permutation_in with (l := map id files); [now symmetry|].
          now apply in_map. }
        apply in_map_iff in Hid as [s [Hs Hin]].
        destruct (exists_ s) eqn:Hex.
        { exfalso. exact (Hnone s Hin Hex Hs). }
        destruct (lookup_found files s file Hfile (eq_sym Hs)) as [file' Hl].
        apply in_map_iff. exists s. split.
        -- rewrite Hl. f_equal.
           apply lookup_Some in Hl as [Hfile' Hid'].
           apply (NoDup_map_inj id files Hnd); trivial. congruence.
        -- apply in_missing. now split.
Qed.

Lemma partition_classifies_witness :
  ~ In None (fst (partition_statuses [fileA; fileB]
                    [mkStatus "B" false no_attrs; mkStatus "A" true attrsA])) /\
  forall file,
    In (Some file) (fst (partition_statuses [fileA; fileB]
                           [mkStatus "B" false no_attrs; mkStatus "A" true attrsA])) <->
    In file [fileA; fileB] /\
    forall status,
      In status [mkStatus "B" false no_attrs; mkStatus "A" true attrsA] ->
      exists_ status = true -> gdrive_id status <> id file.
Proof.
  apply (partition_classifies [fileA; fileB]
           [mkStatus "B" false no_attrs; mkStatus "A" true attrsA]).
  - simpl. repeat constructor; simpl; intuition discriminate.
  - simpl. apply perm_swap.
Defined.

(** ** The new-document branch *)

Lemma save_each_throws w (files : list (option File)) :
  In None files -> exists log, save_each w files = (log, Throw TypeError).
Proof.
  induction files as [|[file|] files IH]; simpl; intros Hin.
  - contradiction.
  - destruct Hin as [Heq|Hin]; [discriminate|].
    destruct (IH Hin) as [log ->]. eauto.
  - eauto.
Qed.

Lemma createDocuments_throws w (files : list (option File)) :
  In None files -> exists log, createDocuments w files = (log, Throw TypeError).
Proof.
  intros Hin. unfold createDocuments.
  destruct files as [|file files]; [contradiction|].
  change (List.length (file :: files) =? 0) with false. cbv iota.
  destruct (save_each_throws w _ Hin) as [log ->]. eauto.
Qed.

(** C10: the new-files list is free of [undefined] exactly when every
    status with [exists = false] carries the id of some input file; a
    status that does not puts [undefined] into the list, [createDocuments]
    throws a TypeError on it, and the promise of [mapDocuments] is then
    rejected (jQuery 3) or left pending, never resolved. *)
Theorem partition_undefined_entry (this : ViewModel) (w : World)
    (files : list File) (statuses : list Status) :
  ((forall status, In status statuses -> exists_ status = false ->
      exists file, In file files /\ id file = gdrive_id status) <->
   ~ In None (fst (partition_statuses files statuses))) /\
  (forall status, In status statuses -> exists_ status = false ->
     (forall file, In file files -> id file <> gdrive_id status) ->
     In None (fst (partition_statuses files statuses)) /\
     (exists log, createDocuments w (fst (partition_statuses files statuses))
                  = (log, Throw TypeError)) /\
     (documents_exist w (map id files) = Resolved statuses ->
      snd (mapDocuments this w files) =
        if then_catches w then Rejected TypeError else Pending)).
Proof.
  rewrite partition_statuses_eq. cbn [fst]. split.
  - split.
    + intros Hpre Hin. apply in_map_iff in Hin as [s [Hs Hmiss]].
      apply in_missing in Hmiss as [Hin Hex].
      destruct (Hpre s Hin Hex) as [f [Hf Hid]].
      exact (lookup_None _ _ Hs f Hf Hid).
    + intros Hnone s Hin Hex.
      destruct (lookup files s) as [f|] eqn:Hl.
      * exists f. now apply lookup_Some.
      * exfalso. apply Hnone. apply in_map_iff. exists s. split; trivial.
        apply in_missing. now split.
  - intros s Hin Hex Hno.
    assert (Hundef : In None (map (lookup files) (missing statuses))).
    { apply in_map_iff. exists s. split; [|apply in_missing; now split].
      destruct (lookup files s) as [f|] eqn:Hl; trivial.
      apply lookup_Some in Hl as [Hf Hid]. now destruct (Hno f Hf). }
    split; [assumption|]. split.
    + now apply createDocuments_throws.
    + intros Hresp. unfold mapDocuments, checkDocumentsExist. cbv zeta.
      rewrite Hresp. unfold onStatuses. rewrite partition_statuses_eq.
      destruct (useExistingDocuments this w (filter exists_ statuses)) as [log1 existing].
      destruct (createDocuments_throws w _ Hundef) as [log2 ->].
      reflexivity.
Qed.

Lemma partition_undefined_entry_witness :
  In None (fst (partition_statuses [fileA] [mkStatus "Z" false no_attrs])) /\
  (exists log,
     createDocuments (world_of [mkStatus "Z" false no_attrs] Proceed (Resolved tt)
                               saves (Resolved tt))
                     (fst (partition_statuses [fileA] [mkStatus "Z" false no_attrs]))
     = (log, Throw TypeError)) /\
  snd (mapDocuments control
         (world_of [mkStatus "Z" false no_attrs] Proceed (Resolved tt)
                   saves (Resolved tt))
         [fileA]) = Rejected TypeError.
Proof.
  destruct (partition_undefined_entry control
              (world_of [mkStatus "Z" false no_attrs] Proceed (Resolved tt)
                        saves (Resolved tt))
              [fileA] [mkStatus "Z" false no_attrs]) as [_ H].
  destruct (H (mkStatus "Z" false no_attrs)) as [Hin [Hthrow Hrun]].
  - now left.
  - reflexivity.
  - intros file [<-|[]]. discriminate.
  - split; [exact Hin|]. split; [exact Hthrow|]. apply Hrun. reflexivity.
Defined.

Lemma save_each_defined w (files : list File) :
  save_each w (map Some files) =
  (map Save (map instance_of files),
   Return (map (save_promise w) (map instance_of files))).
Proof.
  induction files as [|file files IH]; simpl; [reflexivity|].
  now rewrite IH.
Qed.

Lemma first_rejection_in (ds : list deferred) e :
  In (Rejected e) ds -> exists e', first_rejection ds = Some e'.
Proof.
  induction ds as [|d ds IH]; simpl; intros Hin; [contradiction|].
  destruct d as [|args|e0]; eauto.
  - destruct Hin as [Heq|Hin]; [discriminate | auto].
  - destruct Hin as [Heq|Hin]; [discriminate | auto].
Qed.

Lemma when_rejected (ds : list deferred) e :
  In (Rejected e) ds -> exists e', when ds = Rejected e'.
Proof.
  intros Hin. destruct (first_rejection_in ds e Hin) as [e' He'].
  destruct ds as [|d [|d' ds]].
  - contradiction.
  - destruct Hin as [->|[]]. now exists e.
  - exists e'. unfold when. now rewrite He'.
Qed.

Lemma save_promises_resolved w (instances : list Document) (docs : list Document) :
  Forall2 (fun instance doc => save w instance = Resolved doc) instances docs ->
  first_rejection (map (save_promise w) instances) = None /\
  all_resolved (map (save_promise w) instances) =
    Some (map (fun doc => [VDocument doc]) docs).
Proof.
  induction 1 as [|instance doc instances docs Hsave _ [IH1 IH2]]; simpl.
  - now split.
  - assert (Hp : save_promise w instance = Resolved [VDocument doc])
      by (unfold save_promise; now rewrite Hsave).
    rewrite Hp, IH1, IH2. now split.
Qed.

Lemma when_saved w (instances : list Document) (docs : list Document) :
  instances <> [] ->
  Forall2 (fun instance doc => save w instance = Resolved doc) instances docs ->
  when (map (save_promise w) instances) = Resolved (map VDocument docs).
Proof.
  intros Hne Hall. destruct (save_promises_resolved w _ _ Hall) as [H1 H2].
  destruct Hall as [|i1 d1 instances docs Hs1 Hall]; [congruence|].
  destruct Hall as [|i2 d2 instances docs Hs2 Hall].
  - simpl. unfold save_promise. now rewrite Hs1.
  - cbn [map] in *. unfold when. rewrite H1, H2. cbn [map when_value].
    do 3 f_equal. rewrite map_map. reflexivity.
Qed.

(** What the join of [mapDocuments] sees of a list of saved documents. *)
Lemma makeArray_documents (docs : list Document) :
  makeArray (when_value (map VDocument docs)) = map VDocument docs.
Proof. destruct docs as [|d1 [|d2 docs]]; reflexivity. Qed.

Lemma createDocuments_defined w (files : list File) :
  files <> [] ->
  createDocuments w (map Some files) =
  let all := when (map (save_promise w) (map instance_of files)) in
  (Dispatch OnParentInstance BEFORE_DOCUMENT_CREATE
     :: map Save (map instance_of files)
     ++ match all with
        | Rejected _ => [Dispatch OnParentInstance DOCUMENT_CREATE_FAILED]
        | _ => []
        end,
   Return all).
Proof.
  intros Hne. unfold createDocuments. rewrite save_each_defined.
  destruct files as [|file files]; [congruence|]. reflexivity.
Qed.

(** C7: on a non-empty list of new files [createDocuments] first dispatches
    BEFORE_DOCUMENT_CREATE on the parent instance and then issues every
    [save], whatever the collaborators answer (nothing waits for the
    listeners of the event); if one of the saves fails, the returned promise
    is rejected and DOCUMENT_CREATE_FAILED is dispatched on the parent
    instance. *)
Theorem createDocuments_failure (w : World) (files : list File) :
  files <> [] ->
  (exists log,
     fst (createDocuments w (map Some files)) =
       Dispatch OnParentInstance BEFORE_DOCUMENT_CREATE
         :: map Save (map instance_of files) ++ log) /\
  ((exists file e, In file files /\ save w (instance_of file) = Rejected e) ->
   (exists e', snd (createDocuments w (map Some files)) = Return (Rejected e')) /\
   In (Dispatch OnParentInstance DOCUMENT_CREATE_FAILED)
      (fst (createDocuments w (map Some files)))).
Proof.
  intros Hne. rewrite (createDocuments_defined w files Hne). cbv zeta. cbn [fst snd].
  split; [eauto|].
  intros [file [e [Hin Hsave]]].
  assert (Hrej : In (Rejected e) (map (save_promise w) (map instance_of files))).
  { apply in_map_iff. exists (instance_of file). split.
    - unfold save_promise. now rewrite Hsave.
    - now apply in_map. }
  destruct (when_rejected _ _ Hrej) as [e' ->]. split; [eauto|].
  right. apply in_or_app. right. now left.
Qed.

Lemma createDocuments_failure_witness :
  (exists e', snd (createDocuments (world_of [] Proceed (Resolved tt) save_fails (Resolved tt))
                                   (map Some [fileA; fileB])) = Return (Rejected e')) /\
  In (Dispatch OnParentInstance DOCUMENT_CREATE_FAILED)
     (fst (createDocuments (world_of [] Proceed (Resolved tt) save_fails (Resolved tt))
                           (map Some [fileA; fileB]))).
Proof.
  apply (createDocuments_failure
           (world_of [] Proceed (Resolved tt) save_fails (Resolved tt)) [fileA; fileB]).
  - discriminate.
  - exists fileB, SaveFailure. split; [right; now left | reflexivity].
Defined.

(** C5, as stated, fails: with two files whose saves succeed, the promise
    of [createDocuments] resolves with two arguments, one saved document
    each, not with one list of them. *)
Lemma new_branch_as_specified_fails :
  ~ new_branch_as_specified
      (world_of [] Proceed (Resolved tt) saves (Resolved tt)) [fileA; fileB].
Proof.
  intros H.
  specialize (H ltac:(discriminate)
                [saved (instance_of fileA); saved (instance_of fileB)]
                ltac:(repeat constructor)).
  discriminate H.
Qed.

(** C5 (amended): when every save of a non-empty list of new files
    succeeds, [createDocuments] resolves with the saved documents as
    separate arguments, one per file in the order of the files (a single
    document for a single file) and never with one array of them; the join
    of [mapDocuments] turns these arguments back into the list of the saved
    documents, in the same order, and the merged list is the list of the
    existing-document branch followed by that list. *)
Theorem createDocuments_success (this : ViewModel) (w : World)
    (files : list File) (docs : list Document) :
  files <> [] ->
  Forall2 (fun file doc => save w (instance_of file) = Resolved doc) files docs ->
  snd (createDocuments w (map Some files)) = Return (Resolved (map VDocument docs)) /\
  (forall items, snd (createDocuments w (map Some files))
                 <> Return (Resolved [VArray items])) /\
  makeArray (when_value (map VDocument docs)) = map VDocument docs /\
  (forall picked statuses existingDocs,
     fst (partition_statuses picked statuses) = map Some files ->
     snd (useExistingDocuments this w (snd (partition_statuses picked statuses)))
       = Resolved [VArray existingDocs] ->
     snd (onStatuses this w picked statuses)
       = Return (Resolved (existingDocs ++ map VDocument docs))).
Proof.
  intros Hne Hall.
  assert (Hwhen : when (map (save_promise w) (map instance_of files))
                  = Resolved (map VDocument docs)).
  { apply when_saved.
    - destruct files; [congruence | discriminate].
    - clear Hne. induction Hall; simpl; constructor; auto. }
  assert (Hcreate : snd (createDocuments w (map Some files))
                    = Return (Resolved (map VDocument docs))).
  { rewrite (createDocuments_defined w files Hne). cbv zeta. cbn [snd].
    now rewrite Hwhen. }
  split; [assumption|]. split.
  { intros items. rewrite Hcreate. intros H. inversion H as [Hargs].
    destruct docs as [|doc [|doc' docs]]; discriminate Hargs. }
  split; [apply makeArray_documents|].
  intros picked statuses existingDocs Hnew Hexisting.
  unfold onStatuses.
  destruct (partition_statuses picked statuses) as [newFiles existingDocuments].
  cbn [fst snd] in Hnew, Hexisting. subst newFiles.
  destruct (useExistingDocuments this w existingDocuments) as [log1 existing].
  cbn [snd] in Hexisting. subst existing.
  destruct (createDocuments w (map Some files)) as [log2 created].
  cbn [snd] in Hcreate. subst created. cbn [snd].
  unfold when. cbn [first_rejection all_resolved map when_value].
  unfold mergeDocuments. rewrite makeArray_documents. reflexivity.
Qed.

Lemma createDocuments_success_witness :
  snd (createDocuments
         (world_of [mkStatus "A" true attrsA; mkStatus "C" false no_attrs;
                    mkStatus "B" false no_attrs]
                   Proceed (Resolved tt) saves (Resolved tt))
         (map Some [fileC; fileB]))
    = Return (Resolved [VDocument (saved (instance_of fileC));
                        VDocument (saved (instance_of fileB))]) /\
  snd (onStatuses control
         (world_of [mkStatus "A" true attrsA; mkStatus "C" false no_attrs;
                    mkStatus "B" false no_attrs]
                   Proceed (Resolved tt) saves (Resolved tt))
         [fileA; fileB; fileC]
         [mkStatus "A" true attrsA; mkStatus "C" false no_attrs;
          mkStatus "B" false no_attrs])
    = Return (Resolved [VDocument (new_Document attrsA);
                        VDocument (saved (instance_of fileC));
                        VDocument (saved (instance_of fileB))]).
Proof.
  destruct (createDocuments_success control
              (world_of [mkStatus "A" true attrsA; mkStatus "C" false no_attrs;
                         mkStatus "B" false no_attrs]
                        Proceed (Resolved tt) saves (Resolved tt))
              [fileC; fileB]
              [saved (instance_of fileC); saved (instance_of fileB)])
    as [Hbranch [_ [_ Hmerge]]].
  - discriminate.
  - repeat constructor.
  - split; [exact Hbranch|].
    apply (Hmerge [fileA; fileB; fileC]
                  [mkStatus "A" true attrsA; mkStatus "C" false no_attrs;
                   mkStatus "B" false no_attrs]
                  [VDocument (new_Document attrsA)]); reflexivity.
Defined.

(** ** The existing-document branch *)

Lemma useExistingDocuments_eq this w (documents : list Status) :
  documents <> [] ->
  useExistingDocuments this w documents =
  let docsCount := List.length documents in
  let prompt := Confirm docsCount (if 1 <? docsCount then "files are" else "file is")
                        (parentInstance this) in
  match confirm w docsCount with
  | Proceed =>
      ([prompt; Post make_admin_url (map gdrive_id documents)],
       match make_admin w (map gdrive_id documents) with
       | Resolved _ =>
           Resolved [VArray (map (fun doc => VDocument (new_Document (object doc)))
                                 documents)]
       | _ => Pending
       end)
  | Cancel => ([prompt], Resolved [VArray []])
  | Unanswered => ([prompt], Pending)
  end.
Proof.
  intros Hne. unfold useExistingDocuments, showConfirm, makeAdmin.
  destruct documents as [|doc documents]; [congruence|].
  change (List.length (doc :: documents) =? 0) with false. cbv iota zeta.
  destruct (confirm w (List.length (doc :: documents))); reflexivity.
Qed.

Lemma all_exist (statuses : list Status) :
  (forall status, In status statuses -> exists_ status = true) ->
  missing statuses = [] /\ filter exists_ statuses = statuses.
Proof.
  induction statuses as [|s statuses IH]; intros Hall; [now split|].
  unfold missing in *. simpl. rewrite (Hall s (or_introl eq_refl)). simpl.
  destruct IH as [IH1 IH2]; [intros; apply Hall; now right|].
  now rewrite IH1, IH2.
Qed.

(** C1: when the user proceeds and the admin grant fails, the deferred
    returned by [useExistingDocuments] is never settled: it is neither
    resolved nor rejected.  A run in which every file already exists then
    never settles either. *)
Theorem useExistingDocuments_grant_failure (this : ViewModel) (w : World)
    (documents : list Status) (e : error) :
  documents <> [] ->
  confirm w (List.length documents) = Proceed ->
  make_admin w (map gdrive_id documents) = Rejected e ->
  snd (useExistingDocuments this w documents) = Pending /\
  (forall files,
     documents_exist w (map id files) = Resolved documents ->
     (forall status, In status documents -> exists_ status = true) ->
     snd (mapDocuments this w files) = Pending).
Proof.
  intros Hne Hconfirm Hadmin.
  assert (Hbranch : snd (useExistingDocuments this w documents) = Pending).
  { rewrite (useExistingDocuments_eq this w documents Hne). cbv zeta.
    now rewrite Hconfirm, Hadmin. }
  split; [assumption|].
  intros files Hresp Hall. unfold mapDocuments, checkDocumentsExist. cbv zeta.
  rewrite Hresp. unfold onStatuses. rewrite partition_statuses_eq.
  destruct (all_exist documents Hall) as [-> ->].
  destruct (useExistingDocuments this w documents) as [log1 existing].
  cbn [snd] in Hbranch. subst existing. reflexivity.
Qed.

Lemma useExistingDocuments_grant_failure_witness :
  snd (useExistingDocuments control
         (world_of [mkStatus "A" true attrsA] Proceed
                   (Rejected (AjaxFailure make_admin_url)) saves (Resolved tt))
         [mkStatus "A" true attrsA]) = Pending /\
  snd (mapDocuments control
         (world_of [mkStatus "A" true attrsA] Proceed
                   (Rejected (AjaxFailure make_admin_url)) saves (Resolved tt))
         [fileA]) = Pending.
Proof.
  destruct (useExistingDocuments_grant_failure control
              (world_of [mkStatus "A" true attrsA] Proceed
                        (Rejected (AjaxFailure make_admin_url)) saves (Resolved tt))
              [mkStatus "A" true attrsA] (AjaxFailure make_admin_url))
    as [Hbranch Hrun].
  - discriminate.
  - reflexivity.
  - reflexivity.
  - split; [exact Hbranch|]. apply Hrun.
    + reflexivity.
    + intros status [<-|[]]. reflexivity.
Defined.

(** ** The finalizer *)

Lemma refreshPermissionsAndMap_nonempty w (documents : list value) :
  documents <> [] ->
  refreshPermissionsAndMap w documents =
    RefreshPermissions ::
      match refreshPermissions w with
      | Resolved _ => [Dispatch OnViewModel (MAP_OBJECTS documents)]
      | _ => []
      end.
Proof.
  intros Hne. unfold refreshPermissionsAndMap.
  destruct documents as [|d documents]; [congruence|].
  change (List.length (d :: documents) =? 0) with false. cbv iota.
  destruct (refreshPermissions w); reflexivity.
Qed.

(** C9, as stated, fails: on the empty list nothing is dispatched on the
    parent instance; the event goes to the view model of the component. *)
Lemma empty_finalize_as_specified_fails :
  ~ empty_finalize_as_specified (world_of [] Proceed (Resolved tt) saves (Resolved tt)).
Proof. intros [_ H]. discriminate H. Qed.

(** C9 (amended): on the empty list [refreshPermissionsAndMap] does not
    refresh the permissions and dispatches MAP_OBJECTS once, with the empty
    list, on the view model of the component; on a non-empty list it first
    asks for the permission refresh and dispatches MAP_OBJECTS with the
    list, on the view model, only if the refresh resolves.  Nothing is ever
    dispatched on the parent instance. *)
Theorem refreshPermissionsAndMap_publishes (w : World) (documents : list value) :
  (documents = [] ->
   refreshPermissionsAndMap w documents = [Dispatch OnViewModel (MAP_OBJECTS [])]) /\
  (documents <> [] ->
   refreshPermissionsAndMap w documents =
     RefreshPermissions ::
       match refreshPermissions w with
       | Resolved _ => [Dispatch OnViewModel (MAP_OBJECTS documents)]
       | _ => []
       end) /\
  map_objects_on OnParentInstance (refreshPermissionsAndMap w documents) = [].
Proof.
  split; [|split].
  - intros ->. reflexivity.
  - apply refreshPermissionsAndMap_nonempty.
  - destruct documents as [|d documents]; [reflexivity|].
    rewrite refreshPermissionsAndMap_nonempty by discriminate.
    destruct (refreshPermissions w); reflexivity.
Qed.

Lemma refreshPermissionsAndMap_publishes_witness :
  refreshPermissionsAndMap (world_of [] Proceed (Resolved tt) saves (Resolved tt)) []
    = [Dispatch OnViewModel (MAP_OBJECTS [])] /\
  refreshPermissionsAndMap (world_of [] Proceed (Resolved tt) saves (Resolved tt))
                           [VDocument (new_Document attrsA)]
    = [RefreshPermissions;
       Dispatch OnViewModel (MAP_OBJECTS [VDocument (new_Document attrsA)])].
Proof.
  split.
  - apply (refreshPermissionsAndMap_publishes
             (world_of [] Proceed (Resolved tt) saves (Resolved tt)) []).
    reflexivity.
  - apply (refreshPermissionsAndMap_publishes
             (world_of [] Proceed (Resolved tt) saves (Resolved tt))
             [VDocument (new_Document attrsA)]).
    discriminate.
Defined.

(** ** Whole runs *)

Lemma mapDocuments_finalizes this w files statuses documents :
  documents_exist w (map id files) = Resolved statuses ->
  snd (onStatuses this w files statuses) = Return (Resolved documents) ->
  mapDocuments this w files =
  ([Post documents_exist_url (map id files)]
     ++ fst (onStatuses this w files statuses)
     ++ refreshPermissionsAndMap w documents,
   Resolved [VUndefined]).
Proof.
  intros Hresp Hjoin. unfold mapDocuments, checkDocumentsExist. cbv zeta.
  rewrite Hresp. destruct (onStatuses this w files statuses) as [log1 joined].
  cbn [fst snd] in *. subst joined. reflexivity.
Qed.

(** C8: when every file already exists and the user declines, the
    existing-document branch resolves with the empty list, the existence
    query is the only call that goes over the network (no admin grant, no
    save), and the run completes after one MAP_OBJECTS event carrying the
    empty list. *)
Theorem declined_run (this : ViewModel) (w : World)
    (files : list File) (statuses : list Status) :
  documents_exist w (map id files) = Resolved statuses ->
  (forall status, In status statuses -> exists_ status = true) ->
  confirm w (List.length statuses) = Cancel ->
  snd (useExistingDocuments this w (snd (partition_statuses files statuses)))
    = Resolved [VArray []] /\
  filter (is_post_to make_admin_url) (fst (mapDocuments this w files)) = [] /\
  filter is_save (fst (mapDocuments this w files)) = [] /\
  filter is_network (fst (mapDocuments this w files))
    = [Post documents_exist_url (map id files)] /\
  snd (mapDocuments this w files) = Resolved [VUndefined] /\
  map_objects_on OnViewModel (fst (mapDocuments this w files)) = [[]].
Proof.
  intros Hresp Hall Hcancel.
  assert (Hpart : partition_statuses files statuses = ([], statuses)).
  { rewrite partition_statuses_eq. now destruct (all_exist statuses Hall) as [-> ->]. }
  assert (Hbranch : exists log1,
             useExistingDocuments this w statuses = (log1, Resolved [VArray []]) /\
             filter is_network log1 = [] /\
             forall on, map_objects_on on log1 = []).
  { destruct statuses as [|s statuses].
    - exists []. repeat split.
    - rewrite useExistingDocuments_eq by discriminate. cbv zeta.
      rewrite Hcancel. eexists. repeat split. }
  destruct Hbranch as [log1 [Hex [Hnet Hmap]]].
  assert (Hjoin : onStatuses this w files statuses = (log1 ++ [], Return (Resolved []))).
  { unfold onStatuses. rewrite Hpart, Hex. reflexivity. }
  rewrite Hpart. cbn [snd]. rewrite Hex. cbn [snd].
  rewrite (mapDocuments_finalizes this w files statuses [] Hresp)
    by (now rewrite Hjoin).
  rewrite Hjoin. cbn [fst snd]. rewrite app_nil_r.
  assert (Hpost : filter (is_post_to make_admin_url) log1 = []).
  { clear -Hnet. induction log1 as [|e log1 IH]; [reflexivity|].
    simpl in Hnet. destruct e; simpl in *; try discriminate; auto. }
  assert (Hsave : filter is_save log1 = []).
  { clear -Hnet. induction log1 as [|e log1 IH]; [reflexivity|].
    simpl in Hnet. destruct e; simpl in *; try discriminate; auto. }
  assert (Hobs : forall on log',
             map_objects_on on (log1 ++ log') = map_objects_on on log').
  { clear -Hmap. intros on log'. specialize (Hmap on).
    induction log1 as [|e log1 IH]; [reflexivity|].
    simpl in *. destruct e as [| | | |on' ev]; auto.
    destruct ev; auto. destruct (target_eqb on on'); [discriminate | auto]. }
  repeat split.
  - cbn [app filter is_post_to]. change (make_admin_url =? documents_exist_url)%string with false.
    cbv iota. rewrite filter_app, Hpost. reflexivity.
  - cbn [app filter is_save]. rewrite filter_app, Hsave. reflexivity.
  - cbn [app filter is_network]. rewrite filter_app, Hnet. reflexivity.
  - cbn [app map_objects_on]. rewrite Hobs. reflexivity.
Qed.

Lemma declined_run_witness :
  snd (mapDocuments control
         (world_of [mkStatus "A" true attrsA; mkStatus "B" true attrsB] Cancel
                   (Resolved tt) saves (Resolved tt))
         [fileA; fileB]) = Resolved [VUndefined] /\
  map_objects_on OnViewModel
    (fst (mapDocuments control
            (world_of [mkStatus "A" true attrsA; mkStatus "B" true attrsB] Cancel
                      (Resolved tt) saves (Resolved tt))
            [fileA; fileB])) = [[]].
Proof.
  apply (declined_run control
           (world_of [mkStatus "A" true attrsA; mkStatus "B" true attrsB] Cancel
                     (Resolved tt) saves (Resolved tt))
           [fileA; fileB] [mkStatus "A" true attrsA; mkStatus "B" true attrsB]).
  - reflexivity.
  - intros status [<-|[<-|[]]]; reflexivity.
  - reflexivity.
Defined.

Lemma map_objects_on_app on (log log' : trace) :
  map_objects_on on (log ++ log') = map_objects_on on log ++ map_objects_on on log'.
Proof.
  induction log as [|e log IH]; [reflexivity|].
  simpl. destruct e as [| | | |on' ev]; auto.
  destruct ev; auto. destruct (target_eqb on on'); simpl; now rewrite IH.
Qed.

Lemma useExistingDocuments_quiet this w (documents : list Status) on :
  map_objects_on on (fst (useExistingDocuments this w documents)) = [].
Proof.
  destruct documents as [|doc documents]; [reflexivity|].
  rewrite useExistingDocuments_eq by discriminate. cbv zeta.
  destruct (confirm w (List.length (doc :: documents))); reflexivity.
Qed.

Lemma save_each_quiet w (files : list (option File)) on :
  map_objects_on on (fst (save_each w files)) = [].
Proof.
  induction files as [|[file|] files IH]; simpl; try reflexivity.
  destruct (save_each w files) as [log [dfdDocs|e]]; exact IH.
Qed.

Lemma createDocuments_quiet w (files : list (option File)) on :
  map_objects_on on (fst (createDocuments w files)) = [].
Proof.
  unfold createDocuments. destruct files as [|file files]; [reflexivity|].
  change (List.length (file :: files) =? 0) with false. cbv iota.
  pose proof (save_each_quiet w (file :: files) on) as Hq.
  destruct (save_each w (file :: files)) as [log1 [dfdDocs|e]]; cbn [fst] in *.
  - rewrite !map_objects_on_app, Hq. destruct (when dfdDocs); reflexivity.
  - rewrite map_objects_on_app, Hq. reflexivity.
Qed.

Lemma onStatuses_quiet this w files statuses on :
  map_objects_on on (fst (onStatuses this w files statuses)) = [].
Proof.
  unfold onStatuses.
  destruct (partition_statuses files statuses) as [newFiles existingDocuments].
  pose proof (useExistingDocuments_quiet this w existingDocuments on) as H1.
  pose proof (createDocuments_quiet w newFiles on) as H2.
  destruct (useExistingDocuments this w existingDocuments) as [log1 existing].
  destruct (createDocuments w newFiles) as [log2 [created|e]]; cbn [fst] in *;
    now rewrite map_objects_on_app, H1, H2.
Qed.

(** C3, as stated, fails: one new file, its save succeeds, the permission
    refresh fails, and the promise of [mapDocuments] is resolved. *)
Lemma refresh_failure_as_specified_fails :
  ~ refresh_failure_as_specified control
      (world_of [mkStatus "B" false no_attrs] Proceed (Resolved tt) saves
                (Rejected (AjaxFailure "/permissions")))
      [fileB].
Proof.
  intros H.
  destruct (H [mkStatus "B" false no_attrs]
              [VDocument (saved (instance_of fileB))]
              (AjaxFailure "/permissions")) as [e' He'];
    try reflexivity; discriminate.
Qed.

(** C3 (amended): in a run that reaches the finalizer with a non-empty
    list, a failure of the permission refresh is not reported by the
    promise [mapDocuments] returns, which is resolved all the same
    ([refreshPermissionsAndMap] returns nothing to chain on); the failure
    only keeps the MAP_OBJECTS event from being dispatched. *)
Theorem refresh_failure_swallowed (this : ViewModel) (w : World)
    (files : list File) (statuses : list Status) (documents : list value)
    (e : error) :
  documents_exist w (map id files) = Resolved statuses ->
  snd (onStatuses this w files statuses) = Return (Resolved documents) ->
  documents <> [] ->
  refreshPermissions w = Rejected e ->
  snd (mapDocuments this w files) = Resolved [VUndefined] /\
  In RefreshPermissions (fst (mapDocuments this w files)) /\
  forall on, map_objects_on on (fst (mapDocuments this w files)) = [].
Proof.
  intros Hresp Hjoin Hne Hrefresh.
  rewrite (mapDocuments_finalizes this w files statuses documents Hresp Hjoin).
  cbn [fst snd].
  rewrite (refreshPermissionsAndMap_nonempty w documents Hne), Hrefresh.
  split; [reflexivity|]. split.
  - apply in_or_app. right. apply in_or_app. right. now left.
  - intros on. cbn [app map_objects_on].
    rewrite map_objects_on_app, onStatuses_quiet. reflexivity.
Qed.

Lemma refresh_failure_swallowed_witness :
  snd (mapDocuments control
         (world_of [mkStatus "B" false no_attrs] Proceed (Resolved tt) saves
                   (Rejected (AjaxFailure "/permissions")))
         [fileB]) = Resolved [VUndefined] /\
  In RefreshPermissions
     (fst (mapDocuments control
             (world_of [mkStatus "B" false no_attrs] Proceed (Resolved tt) saves
                       (Rejected (AjaxFailure "/permissions")))
             [fileB])) /\
  forall on,
    map_objects_on on
      (fst (mapDocuments control
              (world_of [mkStatus "B" false no_attrs] Proceed (Resolved tt) saves
                        (Rejected (AjaxFailure "/permissions")))
              [fileB])) = [].
Proof.
  apply (refresh_failure_swallowed control
           (world_of [mkStatus "B" false no_attrs] Proceed (Resolved tt) saves
                     (Rejected (AjaxFailure "/permissions")))
           [fileB] [mkStatus "B" false no_attrs]
           [VDocument (saved (instance_of fileB))]
           (AjaxFailure "/permissions")).
  - reflexivity.
  - reflexivity.
  - discriminate.
  - reflexivity.
Defined.

(** C2, as stated, fails: on no files the existence query is still sent. *)
Lemma empty_run_as_specified_fails :
  ~ empty_run_as_specified control
      (world_of [] Proceed (Resolved tt) saves (Resolved tt)).
Proof. intros [_ [_ [H _]]]. discriminate H. Qed.

(** C2 (amended): on no files [mapDocuments] sends the existence query,
    with an empty id list, whatever the collaborators do; when the service
    answers it with no status, that query is the only call of the run
    (no other network call, no prompt), and the run completes after one
    MAP_OBJECTS event carrying the empty list. *)
Theorem empty_run (this : ViewModel) (w : World) :
  (exists log, fst (mapDocuments this w []) = Post documents_exist_url [] :: log) /\
  (documents_exist w [] = Resolved [] ->
   mapDocuments this w [] =
     ([Post documents_exist_url []; Dispatch OnViewModel (MAP_OBJECTS [])],
      Resolved [VUndefined])).
Proof.
  split.
  - unfold mapDocuments, checkDocumentsExist. cbv zeta. cbn [map].
    destruct (documents_exist w []) as [|statuses|e]; cbn [fst app]; eauto.
    destruct (onStatuses this w [] statuses) as [log1 [[|documents|e]|e]];
      cbn [fst app]; eauto.
  - intros Hresp.
    rewrite (mapDocuments_finalizes this w [] [] []); [reflexivity|exact Hresp|reflexivity].
Qed.

Lemma empty_run_witness :
  mapDocuments control (world_of [] Proceed (Resolved tt) saves (Resolved tt)) [] =
  ([Post documents_exist_url []; Dispatch OnViewModel (MAP_OBJECTS [])],
   Resolved [VUndefined]).
Proof.
  apply (empty_run control (world_of [] Proceed (Resolved tt) saves (Resolved tt))).
  reflexivity.
Defined.

(** *** The size of the merged list *)

Lemma save_each_returns w (files : list (option File)) log dfdDocs :
  save_each w files = (log, Return dfdDocs) ->
  exists defined, files = map Some defined /\
                  dfdDocs = map (save_promise w) (map instance_of defined).
Proof.
  revert log dfdDocs.
  induction files as [|[file|] files IH]; simpl; intros log dfdDocs H.
  - exists []. inversion H. now split.
  - destruct (save_each w files) as [log' [dfdDocs'|e]]; inversion H; subst.
    destruct (IH _ _ eq_refl) as [defined [-> ->]].
    exists (file :: defined). now split.
  - discriminate.
Qed.

Lemma all_resolved_saves w (instances : list Document) argss :
  all_resolved (map (save_promise w) instances) = Some argss ->
  exists docs,
    Forall2 (fun instance doc => save w instance = Resolved doc) instances docs /\
    argss = map (fun doc => [VDocument doc]) docs.
Proof.
  revert argss. induction instances as [|instance instances IH]; simpl; intros argss H.
  - inversion H. exists []. split; [constructor | reflexivity].
  - unfold save_promise at 1 in H.
    destruct (save w instance) as [|doc|e] eqn:Hsave; try discriminate.
    destruct (all_resolved (map (save_promise w) instances)) as [argss'|]; try discriminate.
    inversion H; subst. destruct (IH _ eq_refl) as [docs [Hall ->]].
    exists (doc :: docs). split; [now constructor | reflexivity].
Qed.

Lemma when_saved_inv w (instances : list Document) args :
  instances <> [] ->
  when (map (save_promise w) instances) = Resolved args ->
  exists docs,
    Forall2 (fun instance doc => save w instance = Resolved doc) instances docs /\
    args = map VDocument docs.
Proof.
  intros Hne H. destruct instances as [|i1 [|i2 instances]]; [congruence| |].
  - simpl in H. unfold save_promise in H.
    destruct (save w i1) as [|doc|e] eqn:Hsave; try discriminate.
    inversion H. exists [doc]. split; [repeat constructor; assumption | reflexivity].
  - unfold when in H. cbn [map] in H.
    destruct (first_rejection _); [discriminate|].
    destruct (all_resolved _) as [argss|] eqn:Hall; [|discriminate].
    apply (all_resolved_saves w (i1 :: i2 :: instances)) in Hall as [docs [Hall ->]].
    exists docs. split; [assumption|]. inversion H. now rewrite map_map.
Qed.

Lemma created_all w (files : list File) (docs : list Document) :
  Forall2 (fun file doc => save w (instance_of file) = Resolved doc) files docs ->
  created w (map Some files) = files.
Proof.
  induction 1 as [|file doc files docs Hsave _ IH]; [reflexivity|].
  unfold created in *. simpl. rewrite Hsave, IH. reflexivity.
Qed.

Lemma createDocuments_resolved w (newFiles : list (option File)) args :
  snd (createDocuments w newFiles) = Return (Resolved args) ->
  List.length (makeArray (when_value args)) = List.length (created w newFiles) /\
  List.length (created w newFiles) = List.length newFiles.
Proof.
  unfold createDocuments. destruct newFiles as [|file newFiles].
  - simpl. intros H. inversion H. now split.
  - change (List.length (file :: newFiles) =? 0) with false. cbv iota.
    destruct (save_each w (file :: newFiles)) as [log1 [dfdDocs|e]] eqn:Heach;
      cbn [snd]; intros H; [|discriminate].
    apply save_each_returns in Heach as [defined [Hfiles ->]].
    inversion H as [Hwhen]. clear H.
    apply when_saved_inv in Hwhen as [docs [Hall ->]].
    + rewrite Hfiles.
      assert (Hall' : Forall2 (fun file doc => save w (instance_of file) = Resolved doc)
                              defined docs).
      { clear -Hall. remember (map instance_of defined) as instances eqn:Heq.
        revert defined Heq. induction Hall; intros [|f defined] Heq;
          try discriminate; constructor.
        - simpl in Heq. inversion Heq; subst. assumption.
        - apply IHHall. simpl in Heq. now inversion Heq. }
      rewrite (created_all w defined docs Hall'), makeArray_documents.
      rewrite !List.length_map. split; [|reflexivity].
      symmetry. exact (Forall2_length Hall').
    + destruct defined; [discriminate Hfiles | discriminate].
Qed.

Lemma useExistingDocuments_resolved this w (existingDocuments : list Status) args :
  snd (useExistingDocuments this w existingDocuments) = Resolved args ->
  List.length (makeArray (when_value args)) = List.length (admitted w existingDocuments) /\
  (confirm w (List.length existingDocuments) = Cancel ->
   makeArray (when_value args) = []).
Proof.
  destruct existingDocuments as [|doc existingDocuments].
  - simpl. intros H. inversion H. unfold admitted. simpl.
    split; [|reflexivity].
    destruct (confirm w 0); [destruct (make_admin w [])|..]; reflexivity.
  - rewrite useExistingDocuments_eq by discriminate. cbv zeta. unfold admitted.
    destruct (confirm w (List.length (doc :: existingDocuments))); cbn [snd].
    + destruct (make_admin w (map gdrive_id (doc :: existingDocuments)));
        intros H; inversion H.
      simpl. rewrite List.length_map. split; [reflexivity|discriminate].
    + intros H. inversion H. split; reflexivity.
    + discriminate.
Qed.

(** C4: in a run that reaches the finalizer, the existence service having
    answered with one status per file (section 4.1), the merged list has
    as many entries as there are admitted existing documents and created
    documents together, it is no longer than the list of files, and
    existing documents whose confirmation was declined add nothing. *)
Theorem merged_size (this : ViewModel) (w : World)
    (files : list File) (statuses : list Status) (documents : list value) :
  documents_exist w (map id files) = Resolved statuses ->
  one_status_per_file files statuses ->
  snd (onStatuses this w files statuses) = Return (Resolved documents) ->
  List.length documents =
    List.length (admitted w (snd (partition_statuses files statuses)))
    + List.length (created w (fst (partition_statuses files statuses))) /\
  List.length documents <= List.length files /\
  (confirm w (List.length (snd (partition_statuses files statuses))) = Cancel ->
   List.length documents =
     List.length (created w (fst (partition_statuses files statuses)))).
Proof.
  intros _ Hcontract Hjoin. unfold one_status_per_file in Hcontract.
  unfold onStatuses in Hjoin.
  pose proof (filter_length exists_ statuses) as Hsplit.
  rewrite partition_statuses_eq in *. cbn [fst snd].
  pose proof (useExistingDocuments_resolved this w (filter exists_ statuses)) as Hex.
  pose proof (createDocuments_resolved w (map (lookup files) (missing statuses))) as Hnew.
  destruct (useExistingDocuments this w (filter exists_ statuses)) as [log1 existing].
  destruct (createDocuments w (map (lookup files) (missing statuses)))
    as [log2 [created_dfd|e]]; cbn [snd] in *; [|discriminate].
  destruct existing as [|eargs|e1], created_dfd as [|nargs|e2];
    try (unfold when in Hjoin; cbn in Hjoin; discriminate Hjoin).
  unfold when in Hjoin. cbn [first_rejection all_resolved map] in Hjoin.
  inversion Hjoin as [Hdocs]. clear Hjoin. unfold mergeDocuments.
  destruct (Hex eargs eq_refl) as [Hadmitted Hdeclined].
  destruct (Hnew nargs eq_refl) as [Hcreated Hall].
  rewrite List.length_app, Hadmitted, Hcreated. split; [reflexivity|].
  assert (Hbound : List.length (admitted w (filter exists_ statuses))
                   + List.length (created w (map (lookup files) (missing statuses)))
                   <= List.length statuses).
  { rewrite Hall, List.length_map. unfold admitted, missing in *.
    destruct (confirm w _); [destruct (make_admin w _)|..]; simpl; lia. }
  split; [lia|].
  intros Hcancel.
  assert (Hzero : List.length (makeArray (when_value eargs)) = 0)
    by now rewrite (Hdeclined Hcancel).
  lia.
Qed.

Lemma merged_size_witness :
  2 = List.length
        (admitted (world_of [mkStatus "A" true attrsA; mkStatus "B" false no_attrs]
                            Proceed (Resolved tt) saves (Resolved tt))
                  (snd (partition_statuses [fileA; fileB]
                          [mkStatus "A" true attrsA; mkStatus "B" false no_attrs])))
      + List.length
          (created (world_of [mkStatus "A" true attrsA; mkStatus "B" false no_attrs]
                             Proceed (Resolved tt) saves (Resolved tt))
                   (fst (partition_statuses [fileA; fileB]
                           [mkStatus "A" true attrsA; mkStatus "B" false no_attrs]))) /\
  2 <= 2.
Proof.
  destruct (merged_size control
              (world_of [mkStatus "A" true attrsA; mkStatus "B" false no_attrs]
                        Proceed (Resolved tt) saves (Resolved tt))
              [fileA; fileB]
              [mkStatus "A" true attrsA; mkStatus "B" false no_attrs]
              [VDocument (new_Document attrsA); VDocument (saved (instance_of fileB))])
    as [Hsize [Hbound _]].
  - reflexivity.
  - reflexivity.
  - reflexivity.
  - split; [exact Hsize | exact Hbound].
Defined.

(** * Further properties of the component *)

(** ** Traces of the parts *)

Lemma useExistingDocuments_trace this w (documents : list Status) :
  fst (useExistingDocuments this w documents) =
  match documents with
  | [] => []
  | _ :: _ =>
      Confirm (List.length documents)
              (if 1 <? List.length documents then "files are" else "file is")
              (parentInstance this)
        :: match confirm w (List.length documents) with
           | Proceed => [Post make_admin_url (map gdrive_id documents)]
           | _ => []
           end
  end.
Proof.
  destruct documents as [|doc documents]; [reflexivity|].
  rewrite useExistingDocuments_eq by discriminate. cbv zeta.
  destruct (confirm w (List.length (doc :: documents))); reflexivity.
Qed.

Lemma useExistingDocuments_state this w (documents : list Status) :
  snd (useExistingDocuments this w documents) =
  match documents with
  | [] => Resolved [VArray []]
  | _ :: _ =>
      match confirm w (List.length documents) with
      | Proceed =>
          match make_admin w (map gdrive_id documents) with
          | Resolved _ => Resolved [VArray (map existing_document documents)]
          | _ => Pending
          end
      | Cancel => Resolved [VArray []]
      | Unanswered => Pending
      end
  end.
Proof.
  destruct documents as [|doc documents]; [reflexivity|].
  rewrite useExistingDocuments_eq by discriminate. cbv zeta.
  destruct (confirm w (List.length (doc :: documents))); reflexivity.
Qed.

Lemma save_each_trace w (files : list (option File)) :
  fst (save_each w files) = map Save (map instance_of (defined_prefix files)).
Proof.
  induction files as [|[file|] files IH]; simpl; try reflexivity.
  destruct (save_each w files) as [log [dfdDocs|e]]; simpl in *; now rewrite IH.
Qed.

Lemma createDocuments_trace w (files : list (option File)) :
  files <> [] ->
  fst (createDocuments w files) =
  Dispatch OnParentInstance BEFORE_DOCUMENT_CREATE
    :: map Save (map instance_of (defined_prefix files))
    ++ match snd (createDocuments w files) with
       | Return (Rejected _) => [Dispatch OnParentInstance DOCUMENT_CREATE_FAILED]
       | _ => []
       end.
Proof.
  intros Hne. unfold createDocuments.
  destruct files as [|file files]; [congruence|].
  change (List.length (file :: files) =? 0) with false. cbv iota.
  pose proof (save_each_trace w (file :: files)) as Htrace.
  destruct (save_each w (file :: files)) as [log1 [dfdDocs|e]]; cbn [fst snd] in *.
  - rewrite Htrace. destruct (when dfdDocs); reflexivity.
  - rewrite Htrace. cbn [app]. now rewrite app_nil_r.
Qed.

Lemma onStatuses_trace this w files statuses :
  fst (onStatuses this w files statuses) =
  fst (useExistingDocuments this w (filter exists_ statuses))
  ++ fst (createDocuments w (map (lookup files) (missing statuses))).
Proof.
  unfold onStatuses. rewrite partition_statuses_eq.
  destruct (useExistingDocuments this w (filter exists_ statuses)) as [log1 existing].
  destruct (createDocuments w (map (lookup files) (missing statuses)))
    as [log2 [created_dfd|e]]; reflexivity.
Qed.

Lemma mapDocuments_trace this w files statuses :
  documents_exist w (map id files) = Resolved statuses ->
  fst (mapDocuments this w files) =
  Post documents_exist_url (map id files)
    :: fst (onStatuses this w files statuses)
    ++ match snd (onStatuses this w files statuses) with
       | Return (Resolved documents) => refreshPermissionsAndMap w documents
       | _ => []
       end.
Proof.
  intros Hresp. unfold mapDocuments, checkDocumentsExist. cbv zeta. rewrite Hresp.
  destruct (onStatuses this w files statuses) as [log1 [[|documents|e]|e]];
    cbn [fst snd app]; rewrite ?app_nil_r; reflexivity.
Qed.

Lemma mapDocuments_unanswered this w files :
  (forall statuses, documents_exist w (map id files) <> Resolved statuses) ->
  mapDocuments this w files =
  ([Post documents_exist_url (map id files)],
   match documents_exist w (map id files) with
   | Rejected e => Rejected e
   | _ => Pending
   end).
Proof.
  intros Hno. unfold mapDocuments, checkDocumentsExist. cbv zeta.
  destruct (documents_exist w (map id files)) as [|statuses|e]; try reflexivity.
  now destruct (Hno statuses).
Qed.

(** [filter] finds nothing in a list none of whose members it keeps. *)
Lemma filter_none {A} (f : A -> bool) (l : list A) :
  (forall a, In a l -> f a = false) -> filter f l = [].
Proof.
  induction l as [|a l IH]; intros H; [reflexivity|].
  simpl. rewrite (H a (or_introl eq_refl)). apply IH. intros; apply H; now right.
Qed.

Lemma filter_saves (f : effect -> bool) (instances : list Document) :
  (forall instance, f (Save instance) = false) ->
  filter f (map Save instances) = [].
Proof.
  intros H. apply filter_none. intros e Hin.
  apply in_map_iff in Hin as [instance [<- _]]. apply H.
Qed.

Lemma useExistingDocuments_filter (f : effect -> bool) this w documents :
  (forall n phrase parent, f (Confirm n phrase parent) = false) ->
  (forall ids, f (Post make_admin_url ids) = false) ->
  filter f (fst (useExistingDocuments this w documents)) = [].
Proof.
  intros Hconfirm Hpost. rewrite useExistingDocuments_trace.
  destruct documents as [|doc documents]; [reflexivity|].
  cbn [filter]. rewrite Hconfirm.
  destruct (confirm w _); cbn [filter]; rewrite ?Hpost; reflexivity.
Qed.

Lemma createDocuments_filter (f : effect -> bool) w (files : list (option File)) :
  (forall instance, f (Save instance) = false) ->
  (forall ev, f (Dispatch OnParentInstance ev) = false) ->
  filter f (fst (createDocuments w files)) = [].
Proof.
  intros Hsave Hdispatch. destruct files as [|file files]; [reflexivity|].
  rewrite createDocuments_trace by discriminate.
  cbn [filter]. rewrite Hdispatch, filter_app, filter_saves by assumption.
  destruct (snd (createDocuments w (file :: files))) as [[|args|e]|e];
    cbn [filter app]; rewrite ?Hdispatch; reflexivity.
Qed.

Lemma refreshPermissionsAndMap_filter (f : effect -> bool) w (documents : list value) :
  f RefreshPermissions = false ->
  (forall objects, f (Dispatch OnViewModel (MAP_OBJECTS objects)) = false) ->
  filter f (refreshPermissionsAndMap w documents) = [].
Proof.
  intros Hrefresh Hdispatch. destruct documents as [|d documents].
  - cbn. now rewrite Hdispatch.
  - rewrite refreshPermissionsAndMap_nonempty by discriminate.
    cbn [filter]. rewrite Hrefresh.
    destruct (refreshPermissions w); cbn [filter]; rewrite ?Hdispatch; reflexivity.
Qed.

Lemma mapDocuments_filter (f : effect -> bool) this w files statuses :
  documents_exist w (map id files) = Resolved statuses ->
  filter f (fst (mapDocuments this w files)) =
  filter f [Post documents_exist_url (map id files)]
  ++ filter f (fst (useExistingDocuments this w (filter exists_ statuses)))
  ++ filter f (fst (createDocuments w (map (lookup files) (missing statuses))))
  ++ filter f match snd (onStatuses this w files statuses) with
              | Return (Resolved documents) => refreshPermissionsAndMap w documents
              | _ => []
              end.
Proof.
  intros Hresp. rewrite (mapDocuments_trace this w files statuses Hresp).
  rewrite onStatuses_trace.
  change (?a :: ?l) with ([a] ++ l) at 1.
  now rewrite !filter_app, <- !app_assoc.
Qed.

(** ** The existing-document branch *)

(** X1: the deferred of [useExistingDocuments] is never rejected, and it never
    resolves with part of the matched documents: it stays pending, or
    resolves with the empty array, or with one document per matched status,
    in the order of the statuses. *)
Theorem useExistingDocuments_all_or_nothing (this : ViewModel) (w : World)
    (documents : list Status) :
  (forall e, snd (useExistingDocuments this w documents) <> Rejected e) /\
  (forall args, snd (useExistingDocuments this w documents) = Resolved args ->
     args = [VArray []] \/
     (args = [VArray (map existing_document documents)] /\
      confirm w (List.length documents) = Proceed /\
      exists u, make_admin w (map gdrive_id documents) = Resolved u)).
Proof.
  rewrite useExistingDocuments_state. split.
  - intros e. destruct documents as [|doc documents]; [discriminate|].
    destruct (confirm w _); [destruct (make_admin w _)|..]; discriminate.
  - intros args. destruct documents as [|doc documents].
    + intros H. inversion H. now left.
    + destruct (confirm w _) eqn:Hc;
        [destruct (make_admin w _) as [|u|e] eqn:Ha|..]; intros H;
        inversion H; subst; eauto.
Qed.

(** X2: in a run whose existence query is answered, the confirmation modal is
    opened once if some status reports an existing document and not at all
    otherwise; it announces the number of existing documents, with the
    wording "file is" for exactly one document and "files are" for more, and
    the parent instance of the component. *)
Theorem confirmation_prompt (this : ViewModel) (w : World)
    (files : list File) (statuses : list Status) :
  documents_exist w (map id files) = Resolved statuses ->
  filter is_confirm (fst (mapDocuments this w files)) =
  match filter exists_ statuses with
  | [] => []
  | existing =>
      [Confirm (List.length existing)
               (if List.length existing =? 1 then "file is" else "files are")
               (parentInstance this)]
  end.
Proof.
  intros Hresp. rewrite (mapDocuments_filter is_confirm this w files statuses Hresp).
  rewrite createDocuments_filter by reflexivity.
  assert (Hfin : forall documents,
             filter is_confirm (refreshPermissionsAndMap w documents) = [])
    by (intros; now apply refreshPermissionsAndMap_filter).
  assert (Hlast : filter is_confirm
                    match snd (onStatuses this w files statuses) with
                    | Return (Resolved documents) => refreshPermissionsAndMap w documents
                    | _ => []
                    end = []).
  { destruct (snd (onStatuses this w files statuses)) as [[|documents|e]|e]; auto. }
  rewrite Hlast, useExistingDocuments_trace. cbn [filter is_confirm app].
  destruct (filter exists_ statuses) as [|doc [|doc' existing]]; [reflexivity|..];
    cbn [filter is_confirm]; destruct (confirm w _); reflexivity.
Qed.

Lemma confirmation_prompt_witness :
  filter is_confirm
    (fst (mapDocuments control
            (world_of [mkStatus "A" true attrsA; mkStatus "B" false no_attrs]
                      Cancel (Resolved tt) saves (Resolved tt))
            [fileA; fileB]))
  = [Confirm 1 "file is" (parentInstance control)].
Proof.
  apply (confirmation_prompt control
           (world_of [mkStatus "A" true attrsA; mkStatus "B" false no_attrs]
                     Cancel (Resolved tt) saves (Resolved tt))
           [fileA; fileB] [mkStatus "A" true attrsA; mkStatus "B" false no_attrs]).
  reflexivity.
Defined.

(** X3: in a run whose existence query is answered, the admin grant is posted
    at most once, only after the user has proceeded at the prompt, and
    then for the ids of all the existing documents, in the order of the
    statuses. *)
Theorem admin_grant_request (this : ViewModel) (w : World)
    (files : list File) (statuses : list Status) :
  documents_exist w (map id files) = Resolved statuses ->
  filter (is_post_to make_admin_url) (fst (mapDocuments this w files)) =
  match filter exists_ statuses with
  | [] => []
  | existing =>
      match confirm w (List.length existing) with
      | Proceed => [Post make_admin_url (map gdrive_id existing)]
      | _ => []
      end
  end.
Proof.
  intros Hresp.
  rewrite (mapDocuments_filter (is_post_to make_admin_url) this w files statuses Hresp).
  rewrite createDocuments_filter by reflexivity.
  assert (Hlast : filter (is_post_to make_admin_url)
                    match snd (onStatuses this w files statuses) with
                    | Return (Resolved documents) => refreshPermissionsAndMap w documents
                    | _ => []
                    end = []).
  { destruct (snd (onStatuses this w files statuses)) as [[|documents|e]|e];
      try reflexivity. now apply refreshPermissionsAndMap_filter. }
  rewrite Hlast, useExistingDocuments_trace.
  change (filter (is_post_to make_admin_url) [Post documents_exist_url (map id files)])
    with (@nil effect).
  cbn [app]. rewrite !app_nil_r.
  destruct (filter exists_ statuses) as [|doc existing]; [reflexivity|].
  cbn [filter is_post_to]. destruct (confirm w _); reflexivity.
Qed.

Lemma admin_grant_request_witness :
  filter (is_post_to make_admin_url)
    (fst (mapDocuments control
            (world_of [mkStatus "A" true attrsA; mkStatus "B" true attrsB]
                      Proceed (Resolved tt) saves (Resolved tt))
            [fileA; fileB]))
  = [Post make_admin_url ["A"; "B"]].
Proof.
  apply (admin_grant_request control
           (world_of [mkStatus "A" true attrsA; mkStatus "B" true attrsB]
                     Proceed (Resolved tt) saves (Resolved tt))
           [fileA; fileB] [mkStatus "A" true attrsA; mkStatus "B" true attrsB]).
  reflexivity.
Defined.

(** ** The existence query *)

(** X4: every run starts with the existence query, which carries the ids of
    the picked files in their order, and asks it only once; when the query
    fails or is never answered it is the only effect of the run, and the
    promise of the run ends as the query did. *)
Theorem existence_query_once (this : ViewModel) (w : World) (files : list File) :
  exists log,
    fst (mapDocuments this w files) =
      Post documents_exist_url (map id files) :: log /\
    filter (is_post_to documents_exist_url) log = [] /\
    ((forall statuses, documents_exist w (map id files) <> Resolved statuses) ->
     log = [] /\
     snd (mapDocuments this w files) =
       match documents_exist w (map id files) with
       | Rejected e => Rejected e
       | _ => Pending
       end).
Proof.
  destruct (documents_exist w (map id files)) as [|statuses|e] eqn:Hresp.
  - exists []. rewrite mapDocuments_unanswered by (rewrite Hresp; discriminate).
    rewrite Hresp. repeat split.
  - eexists. split; [apply (mapDocuments_trace this w files statuses Hresp)|]. split.
    + rewrite onStatuses_trace, !filter_app.
      rewrite useExistingDocuments_filter, createDocuments_filter by reflexivity.
      destruct (snd (onStatuses this w files statuses)) as [[|documents|e]|e];
        try reflexivity.
      now apply refreshPermissionsAndMap_filter.
    + intros Hno. now destruct (Hno statuses).
  - exists []. rewrite mapDocuments_unanswered by (rewrite Hresp; discriminate).
    rewrite Hresp. repeat split.
Qed.

(** ** The new-document branch *)

Lemma defined_prefix_defined (files : list File) :
  defined_prefix (map Some files) = files.
Proof. induction files as [|file files IH]; simpl; now rewrite ?IH. Qed.

Lemma defined_prefix_undefined (before : list File) (rest : list (option File)) :
  defined_prefix (map Some before ++ None :: rest) = before.
Proof. induction before as [|file before IH]; simpl; now rewrite ?IH. Qed.

Lemma when_rejected_in (ds : list deferred) e :
  when ds = Rejected e -> In (Rejected e) ds.
Proof.
  assert (Hfirst : forall l, first_rejection l = Some e -> In (Rejected e) l).
  { induction l as [|d l IH]; simpl; [discriminate|].
    destruct d as [|args|e0]; intros H; auto.
    inversion H. now left. }
  destruct ds as [|d [|d' ds]].
  - discriminate.
  - cbn [when]. intros ->. now left.
  - intros H. apply Hfirst.
    unfold when in H.
    destruct (first_rejection (d :: d' :: ds)) as [e0|]; [now inversion H|].
    destruct (all_resolved (d :: d' :: ds)); discriminate.
Qed.

Lemma save_promise_rejected w instance e :
  save_promise w instance = Rejected e <-> save w instance = Rejected e.
Proof.
  unfold save_promise. destruct (save w instance); split; intros H;
    try discriminate; now inversion H.
Qed.

(** X5: on a non-empty list of well-formed files the promise of
    [createDocuments] is rejected exactly when some save is, with the
    failure of one of the saves, and resolved exactly when every save is;
    DOCUMENT_CREATE_FAILED is dispatched once in the first case and never
    otherwise. *)
Theorem createDocuments_settles (w : World) (files : list File) :
  files <> [] ->
  (forall e, snd (createDocuments w (map Some files)) = Return (Rejected e) ->
     exists file, In file files /\ save w (instance_of file) = Rejected e) /\
  ((exists file e, In file files /\ save w (instance_of file) = Rejected e) <->
   (exists e, snd (createDocuments w (map Some files)) = Return (Rejected e))) /\
  ((exists docs, Forall2 (fun file doc => save w (instance_of file) = Resolved doc)
                         files docs) <->
   (exists args, snd (createDocuments w (map Some files)) = Return (Resolved args))) /\
  filter is_create_failed (fst (createDocuments w (map Some files))) =
    match snd (createDocuments w (map Some files)) with
    | Return (Rejected _) => [Dispatch OnParentInstance DOCUMENT_CREATE_FAILED]
    | _ => []
    end.
Proof.
  intros Hne.
  assert (Hinst : map instance_of files <> []) by (destruct files; [congruence|discriminate]).
  assert (Hrej : forall e, snd (createDocuments w (map Some files)) = Return (Rejected e) ->
                   exists file, In file files /\ save w (instance_of file) = Rejected e).
  { intros e. rewrite (createDocuments_defined w files Hne). cbv zeta. cbn [snd].
    intros H. inversion H as [Hwhen]. apply when_rejected_in in Hwhen.
    apply in_map_iff in Hwhen as [instance [Hsave Hin]].
    apply in_map_iff in Hin as [file [<- Hin]].
    exists file. split; [assumption|]. now apply save_promise_rejected. }
  split; [exact Hrej|]. split; [|split].
  - split.
    + intros [file [e [Hin Hsave]]].
      rewrite (createDocuments_defined w files Hne). cbv zeta. cbn [snd].
      assert (Hmem : In (Rejected e) (map (save_promise w) (map instance_of files))).
      { apply in_map_iff. exists (instance_of file).
        split; [now apply save_promise_rejected | now apply in_map]. }
      destruct (when_rejected _ _ Hmem) as [e' ->]. eauto.
    + intros [e H]. destruct (Hrej e H) as [file [Hin Hsave]]. eauto.
  - rewrite (createDocuments_defined w files Hne). cbv zeta. cbn [snd]. split.
    + intros [docs Hall]. exists (map VDocument docs). f_equal.
      apply when_saved; [assumption|].
      clear -Hall. induction Hall; simpl; constructor; auto.
    + intros [args H]. inversion H as [Hwhen].
      apply when_saved_inv in Hwhen as [docs [Hall _]]; [|assumption].
      exists docs. clear -Hall. remember (map instance_of files) as instances eqn:Heq.
      revert files Heq. induction Hall; intros [|f files] Heq;
        try discriminate; constructor.
      * simpl in Heq. inversion Heq; subst. assumption.
      * apply IHHall. simpl in Heq. now inversion Heq.
  - rewrite createDocuments_trace by (destruct files; [congruence|discriminate]).
    cbn [filter is_create_failed]. rewrite filter_app, filter_saves by reflexivity.
    destruct (snd (createDocuments w (map Some files))) as [[|args|e]|e]; reflexivity.
Qed.

Lemma createDocuments_settles_witness :
  exists file,
    In file [fileA; fileB] /\
    save (world_of [] Proceed (Resolved tt) save_fails (Resolved tt)) (instance_of file)
      = Rejected SaveFailure.
Proof.
  apply (createDocuments_settles
           (world_of [] Proceed (Resolved tt) save_fails (Resolved tt)) [fileA; fileB]).
  - discriminate.
  - reflexivity.
Defined.

(** X6: when the list handed to [createDocuments] holds an [undefined] entry,
    the call throws a TypeError after it has dispatched
    BEFORE_DOCUMENT_CREATE and saved a document for every file in front of
    that entry; nothing is saved for the files behind it, and
    DOCUMENT_CREATE_FAILED is not dispatched. *)
Theorem createDocuments_partial_saves (w : World)
    (before : list File) (rest : list (option File)) :
  createDocuments w (map Some before ++ None :: rest) =
  (Dispatch OnParentInstance BEFORE_DOCUMENT_CREATE
     :: map Save (map instance_of before),
   Throw TypeError).
Proof.
  assert (Hin : In None (map Some before ++ None :: rest))
    by (apply in_or_app; right; now left).
  assert (Hne : map Some before ++ None :: rest <> [])
    by (destruct before; discriminate).
  pose proof (createDocuments_trace w _ Hne) as Htrace.
  destruct (createDocuments_throws w _ Hin) as [log Hthrow].
  rewrite Hthrow in *. cbn [fst snd] in Htrace.
  now rewrite Htrace, defined_prefix_undefined, app_nil_r.
Qed.

(** ** The partition step *)

(** X7: every status lands in exactly one of the two lists, and the partition
    of a concatenation of status lists is the concatenation of the
    partitions: no status is lost, duplicated or reordered within its
    list. *)
Theorem partition_statuses_complete (files : list File)
    (statuses more : list Status) :
  List.length (fst (partition_statuses files statuses))
  + List.length (snd (partition_statuses files statuses))
  = List.length statuses /\
  partition_statuses files (statuses ++ more) =
    (fst (partition_statuses files statuses) ++ fst (partition_statuses files more),
     snd (partition_statuses files statuses) ++ snd (partition_statuses files more)).
Proof.
  rewrite !partition_statuses_eq. cbn [fst snd]. split.
  - rewrite List.length_map. unfold missing.
    pose proof (filter_length exists_ statuses). lia.
  - unfold missing. now rewrite !filter_app, map_app.
Qed.

(** ** Whole runs, continued *)

(** X8: in a run whose existence query is answered, a document is saved for
    each status with [exists = false], in the order of the statuses and up
    to the first status that matches no picked file; the saved instance
    carries the title and the id of the first picked file with the id of
    the status, no id of its own and a context without id. *)
Theorem saved_documents (this : ViewModel) (w : World)
    (files : list File) (statuses : list Status) :
  documents_exist w (map id files) = Resolved statuses ->
  filter is_save (fst (mapDocuments this w files)) =
    map Save (map instance_of
                (defined_prefix (map (lookup files) (missing statuses)))) /\
  forall file,
    In file (defined_prefix (map (lookup files) (missing statuses))) ->
    In file files /\
    instance_of file =
      new_Document (mkAttrs None (title file) (id file) (Some (mkContext None))).
Proof.
  intros Hresp. split.
  - rewrite (mapDocuments_filter is_save this w files statuses Hresp).
    rewrite useExistingDocuments_filter by reflexivity.
    assert (Hlast : filter is_save
                      match snd (onStatuses this w files statuses) with
                      | Return (Resolved documents) => refreshPermissionsAndMap w documents
                      | _ => []
                      end = []).
    { destruct (snd (onStatuses this w files statuses)) as [[|documents|e]|e];
        try reflexivity. now apply refreshPermissionsAndMap_filter. }
    rewrite Hlast. cbn [filter is_save app]. rewrite app_nil_r.
    destruct (map (lookup files) (missing statuses)) as [|file newFiles] eqn:Hnew;
      [reflexivity|].
    rewrite createDocuments_trace by discriminate.
    cbn [filter is_save]. rewrite filter_app.
    assert (Hkeep : forall instances, filter is_save (map Save instances) = map Save instances)
      by (induction instances as [|i instances IH]; simpl; now rewrite ?IH).
    rewrite Hkeep.
    destruct (snd (createDocuments w (file :: newFiles))) as [[|args|e]|e];
      cbn [filter is_save]; now rewrite app_nil_r.
  - intros file Hin. split; [|reflexivity].
    assert (Hsome : In (Some file) (map (lookup files) (missing statuses))).
    { clear -Hin. induction (map (lookup files) (missing statuses)) as [|[f|] l IH];
        simpl in *; try contradiction.
      destruct Hin as [->|Hin]; auto. }
    apply in_map_iff in Hsome as [status [Hlookup _]].
    now apply lookup_Some in Hlookup.
Qed.

Lemma saved_documents_witness :
  filter is_save
    (fst (mapDocuments control
            (world_of [mkStatus "B" false no_attrs; mkStatus "A" false no_attrs]
                      Proceed (Resolved tt) saves (Resolved tt))
            [fileA; fileB]))
  = [Save (instance_of fileB); Save (instance_of fileA)].
Proof.
  apply (saved_documents control
           (world_of [mkStatus "B" false no_attrs; mkStatus "A" false no_attrs]
                     Proceed (Resolved tt) saves (Resolved tt))
           [fileA; fileB]
           [mkStatus "B" false no_attrs; mkStatus "A" false no_attrs]).
  reflexivity.
Defined.

Lemma map_objects_on_filter on (log : trace) :
  (forall on' objects, In (Dispatch on' (MAP_OBJECTS objects)) log -> False) ->
  map_objects_on on log = [].
Proof.
  induction log as [|e log IH]; intros H; [reflexivity|].
  simpl. destruct e as [| | | |on' ev]; try (apply IH; intros; eapply H; right; eauto).
  destruct ev; try (apply IH; intros; eapply H; right; eauto).
  exfalso. eapply H. left. reflexivity.
Qed.

(** X9: a run dispatches MAP_OBJECTS at most once, always on the view model
    and never on the parent instance.  When it does, the promise of the
    run is resolved, the payload is the merged list of the two branches,
    and the permission refresh has succeeded unless that list is empty. *)
Theorem map_objects_once (this : ViewModel) (w : World) (files : list File) :
  map_objects_on OnParentInstance (fst (mapDocuments this w files)) = [] /\
  List.length (map_objects_on OnViewModel (fst (mapDocuments this w files))) <= 1 /\
  (forall objects,
     In objects (map_objects_on OnViewModel (fst (mapDocuments this w files))) ->
     snd (mapDocuments this w files) = Resolved [VUndefined] /\
     (exists statuses,
        documents_exist w (map id files) = Resolved statuses /\
        snd (onStatuses this w files statuses) = Return (Resolved objects)) /\
     (objects <> [] -> exists u, refreshPermissions w = Resolved u)).
Proof.
  destruct (documents_exist w (map id files)) as [|statuses|e] eqn:Hresp;
    try (rewrite mapDocuments_unanswered by (rewrite Hresp; discriminate);
         cbn; repeat split; try lia; contradiction).
  destruct (snd (onStatuses this w files statuses)) as [[|documents|e]|e] eqn:Hjoin.
  1, 3, 4:
    rewrite (mapDocuments_trace this w files statuses Hresp), Hjoin, app_nil_r;
    cbn [map_objects_on]; rewrite !onStatuses_quiet;
    repeat split; cbn; try lia; contradiction.
  rewrite (mapDocuments_finalizes this w files statuses documents Hresp Hjoin).
  cbn [fst snd app map_objects_on].
  rewrite !map_objects_on_app, !onStatuses_quiet. cbn [app].
  destruct documents as [|d documents].
  - cbn. repeat split; try lia.
    + destruct H as [<-|[]]. exists statuses. now split.
    + destruct H as [<-|[]]. congruence.
  - rewrite refreshPermissionsAndMap_nonempty by discriminate.
    destruct (refreshPermissions w) as [|u|e] eqn:Hrefresh; cbn;
      repeat split; try lia; try contradiction.
    + destruct H as [<-|[]]. exists statuses. now split.
    + eauto.
Qed.

(** X10: the promise of a run is rejected only by a failure of the existence
    query, by the failure of a save, or (jQuery 3) by the TypeError of an
    [undefined] entry in the new-files list: a cancelled prompt, a failed
    admin grant or a failed permission refresh never rejects it. *)
Theorem run_rejection_sources (this : ViewModel) (w : World)
    (files : list File) (e : error) :
  snd (mapDocuments this w files) = Rejected e ->
  documents_exist w (map id files) = Rejected e \/
  exists statuses,
    documents_exist w (map id files) = Resolved statuses /\
    ((then_catches w = true /\ e = TypeError /\
      In None (fst (partition_statuses files statuses))) \/
     (exists file, In (Some file) (fst (partition_statuses files statuses)) /\
                   save w (instance_of file) = Rejected e)).
Proof.
  unfold mapDocuments, checkDocumentsExist. cbv zeta.
  destruct (documents_exist w (map id files)) as [|statuses|e0] eqn:Hresp; cbn [snd].
  - discriminate.
  - intros H. right. exists statuses. split; [reflexivity|].
    unfold onStatuses in H. rewrite partition_statuses_eq in *. cbn [fst].
    pose proof (useExistingDocuments_state this w (filter exists_ statuses)) as Hex.
    destruct (useExistingDocuments this w (filter exists_ statuses)) as [log1 existing].
    cbn [snd] in Hex.
    destruct (createDocuments w (map (lookup files) (missing statuses)))
      as [log2 [created_dfd|e1]] eqn:Hcreate.
    + right.
      assert (Hwhen : when [existing; created_dfd] = Rejected e).
      { destruct (when [existing; created_dfd]) as [|[|v1 [|v2 [|v3 l]]]|e2];
          cbn [snd] in H; try discriminate; congruence. }
      apply when_rejected_in in Hwhen. destruct Hwhen as [Hbad|[Hcr|[]]].
      * exfalso. rewrite Hex in Hbad.
        destruct (filter exists_ statuses); [discriminate|].
        destruct (confirm w _); [destruct (make_admin w _)|..]; discriminate.
      * subst created_dfd.
        destruct (map (lookup files) (missing statuses)) as [|file newFiles] eqn:Hnew;
          [discriminate Hcreate|].
        unfold createDocuments in Hcreate.
        change (List.length (file :: newFiles) =? 0) with false in Hcreate.
        cbv iota in Hcreate.
        destruct (save_each w (file :: newFiles)) as [log [dfdDocs|e2]] eqn:Heach;
          [|discriminate].
        apply save_each_returns in Heach as [defined [Hfiles ->]].
        inversion Hcreate as [[Hlog Hwhen]].
        apply when_rejected_in in Hwhen.
        apply in_map_iff in Hwhen as [instance [Hsave Hin]].
        apply in_map_iff in Hin as [f [<- Hin]].
        exists f. split.
        -- rewrite Hfiles. now apply in_map.
        -- now apply save_promise_rejected.
    + left. cbn [snd] in H.
      destruct (then_catches w); [|discriminate]. inversion H; subst e1.
      destruct (In_dec (fun a b : option File => ltac:(repeat decide equality))
                       None (map (lookup files) (missing statuses)))
        as [Hin|Hnot].
      * destruct (createDocuments_throws w _ Hin) as [log Hthrow].
        rewrite Hthrow in Hcreate. inversion Hcreate. now repeat split.
      * exfalso.
        assert (Hdef : exists defined,
                   map (lookup files) (missing statuses) = map Some defined).
        { clear -Hnot. induction (map (lookup files) (missing statuses)) as [|[f|] l IH].
          - now exists [].
          - destruct IH as [defined ->]; [intros Hin; apply Hnot; now right|].
            now exists (f :: defined).
          - exfalso. apply Hnot. now left. }
        destruct Hdef as [defined Hdef]. rewrite Hdef in Hcreate.
        destruct defined as [|f defined]; [discriminate Hcreate|].
        rewrite createDocuments_defined in Hcreate by discriminate.
        discriminate Hcreate.
  - intros H. left. congruence.
Qed.

Lemma run_rejection_sources_witness :
  documents_exist (world_of [mkStatus "B" false no_attrs] Proceed (Resolved tt)
                            save_fails (Resolved tt)) (map id [fileB])
    = Rejected SaveFailure \/
  exists statuses,
    documents_exist (world_of [mkStatus "B" false no_attrs] Proceed (Resolved tt)
                              save_fails (Resolved tt)) (map id [fileB])
      = Resolved statuses /\
    ((then_catches (world_of [mkStatus "B" false no_attrs] Proceed (Resolved tt)
                             save_fails (Resolved tt)) = true /\
      SaveFailure = TypeError /\
      In None (fst (partition_statuses [fileB] statuses))) \/
     (exists file, In (Some file) (fst (partition_statuses [fileB] statuses)) /\
                   save (world_of [mkStatus "B" false no_attrs] Proceed (Resolved tt)
                                  save_fails (Resolved tt)) (instance_of file)
                     = Rejected SaveFailure)).
Proof.
  apply (run_rejection_sources control
           (world_of [mkStatus "B" false no_attrs] Proceed (Resolved tt)
                     save_fails (Resolved tt))
           [fileB] SaveFailure).
  reflexivity.
Defined.

Lemma onStatuses_state this w files statuses :
  snd (onStatuses this w files statuses) =
  match snd (createDocuments w (map (lookup files) (missing statuses))) with
  | Throw e => Throw e
  | Return created =>
      Return
        match when [snd (useExistingDocuments this w (filter exists_ statuses)); created] with
        | Resolved [existingDocs; newDocs] =>
            Resolved (mergeDocuments existingDocs newDocs)
        | Resolved _ => Pending
        | Rejected e => Rejected e
        | Pending => Pending
        end
  end.
Proof.
  unfold onStatuses. rewrite partition_statuses_eq.
  destruct (useExistingDocuments this w (filter exists_ statuses)) as [log1 existing].
  destruct (createDocuments w (map (lookup files) (missing statuses)))
    as [log2 [created_dfd|e]]; reflexivity.
Qed.

Lemma partition_new_files files statuses newFiles :
  fst (partition_statuses files statuses) = newFiles ->
  map (lookup files) (missing statuses) = newFiles.
Proof. now rewrite partition_statuses_eq. Qed.

(** X11: when the new-files list holds no [undefined] entry (every status
    with [exists = false] matches a picked file) and the save of one of
    the new files fails, the promise of the run is rejected,
    DOCUMENT_CREATE_FAILED is dispatched once on the parent instance, and
    the run is not finalized: the permissions are not refreshed and
    MAP_OBJECTS is not dispatched, whatever the existing-document branch
    has done. *)
Theorem failed_save_aborts_run (this : ViewModel) (w : World)
    (files : list File) (statuses : list Status)
    (newFiles : list File) (file : File) (e : error) :
  documents_exist w (map id files) = Resolved statuses ->
  fst (partition_statuses files statuses) = map Some newFiles ->
  In file newFiles ->
  save w (instance_of file) = Rejected e ->
  (exists e', snd (mapDocuments this w files) = Rejected e') /\
  filter is_create_failed (fst (mapDocuments this w files))
    = [Dispatch OnParentInstance DOCUMENT_CREATE_FAILED] /\
  filter is_refresh (fst (mapDocuments this w files)) = [] /\
  forall on, map_objects_on on (fst (mapDocuments this w files)) = [].
Proof.
  intros Hresp Hnew Hin Hsave. apply partition_new_files in Hnew.
  assert (Hne : newFiles <> []) by (destruct newFiles; [contradiction|discriminate]).
  assert (Hcreate : exists e', snd (createDocuments w (map Some newFiles))
                               = Return (Rejected e')).
  { rewrite (createDocuments_defined w newFiles Hne). cbv zeta. cbn [snd].
    assert (Hmem : In (Rejected e) (map (save_promise w) (map instance_of newFiles))).
    { apply in_map_iff. exists (instance_of file).
      split; [now apply save_promise_rejected | now apply in_map]. }
    destruct (when_rejected _ _ Hmem) as [e' ->]. eauto. }
  destruct Hcreate as [e' Hcreate].
  assert (Hjoin : snd (onStatuses this w files statuses) = Return (Rejected e')).
  { rewrite onStatuses_state, Hnew, Hcreate, useExistingDocuments_state.
    destruct (filter exists_ statuses) as [|doc existing]; [reflexivity|].
    destruct (confirm w _); [destruct (make_admin w _)|..]; reflexivity. }
  assert (Hrun : mapDocuments this w files =
                 (Post documents_exist_url (map id files)
                    :: fst (onStatuses this w files statuses), Rejected e')).
  { unfold mapDocuments, checkDocumentsExist. cbv zeta. rewrite Hresp.
    destruct (onStatuses this w files statuses) as [log1 joined].
    cbn [fst snd] in *. subst joined. reflexivity. }
  rewrite Hrun. cbn [fst snd]. split; [eauto|]. rewrite onStatuses_trace, Hnew.
  split; [|split].
  - cbn [filter is_create_failed]. rewrite filter_app.
    rewrite useExistingDocuments_filter by reflexivity.
    rewrite createDocuments_trace by (destruct newFiles; [congruence|discriminate]).
    rewrite Hcreate. cbn [app filter is_create_failed].
    rewrite filter_app, filter_saves by reflexivity. reflexivity.
  - cbn [filter is_refresh]. rewrite filter_app.
    rewrite useExistingDocuments_filter, createDocuments_filter by reflexivity.
    reflexivity.
  - intros on. cbn [map_objects_on].
    now rewrite map_objects_on_app, useExistingDocuments_quiet, createDocuments_quiet.
Qed.

Lemma failed_save_aborts_run_witness :
  (exists e',
     snd (mapDocuments control
            (world_of [mkStatus "A" true attrsA; mkStatus "B" false no_attrs]
                      Proceed (Resolved tt) save_fails (Resolved tt))
            [fileA; fileB]) = Rejected e') /\
  filter is_create_failed
    (fst (mapDocuments control
            (world_of [mkStatus "A" true attrsA; mkStatus "B" false no_attrs]
                      Proceed (Resolved tt) save_fails (Resolved tt))
            [fileA; fileB]))
    = [Dispatch OnParentInstance DOCUMENT_CREATE_FAILED] /\
  filter is_refresh
    (fst (mapDocuments control
            (world_of [mkStatus "A" true attrsA; mkStatus "B" false no_attrs]
                      Proceed (Resolved tt) save_fails (Resolved tt))
            [fileA; fileB])) = [] /\
  forall on,
    map_objects_on on
      (fst (mapDocuments control
              (world_of [mkStatus "A" true attrsA; mkStatus "B" false no_attrs]
                        Proceed (Resolved tt) save_fails (Resolved tt))
              [fileA; fileB])) = [].
Proof.
  apply (failed_save_aborts_run control
           (world_of [mkStatus "A" true attrsA; mkStatus "B" false no_attrs]
                     Proceed (Resolved tt) save_fails (Resolved tt))
           [fileA; fileB] [mkStatus "A" true attrsA; mkStatus "B" false no_attrs]
           [fileB] fileB SaveFailure).
  - reflexivity.
  - reflexivity.
  - now left.
  - reflexivity.
Defined.

(** X12: when every collaborator succeeds (the new-files list holds no
    [undefined] entry and each new file is saved, the user proceeds and
    the admin grant succeeds if there are existing documents, the
    permission refresh succeeds), the promise of the run is resolved and
    MAP_OBJECTS is dispatched exactly once on the view model, carrying the
    existing documents, in the order of their statuses, followed by the
    saved documents, in the order of theirs.  Nothing is said on which of
    the two, resolution and dispatch, comes first. *)
Theorem successful_run (this : ViewModel) (w : World)
    (files : list File) (statuses : list Status)
    (newFiles : list File) (docs : list Document) :
  documents_exist w (map id files) = Resolved statuses ->
  fst (partition_statuses files statuses) = map Some newFiles ->
  Forall2 (fun file doc => save w (instance_of file) = Resolved doc) newFiles docs ->
  (filter exists_ statuses = [] \/
   (confirm w (List.length (filter exists_ statuses)) = Proceed /\
    exists u, make_admin w (map gdrive_id (filter exists_ statuses)) = Resolved u)) ->
  (exists u, refreshPermissions w = Resolved u) ->
  snd (mapDocuments this w files) = Resolved [VUndefined] /\
  map_objects_on OnViewModel (fst (mapDocuments this w files)) =
    [map existing_document (filter exists_ statuses) ++ map VDocument docs].
Proof.
  intros Hresp Hnew Hall Hexisting [u Hrefresh]. apply partition_new_files in Hnew.
  assert (Hcreate : exists args,
             snd (createDocuments w (map Some newFiles)) = Return (Resolved args) /\
             makeArray (when_value args) = map VDocument docs).
  { destruct newFiles as [|file newFiles].
    - inversion Hall. exists [VArray []]. now split.
    - rewrite createDocuments_defined by discriminate. cbv zeta. cbn [snd].
      exists (map VDocument docs). split; [|apply makeArray_documents].
      f_equal. apply when_saved; [discriminate|].
      clear -Hall. induction Hall; simpl; constructor; auto. }
  destruct Hcreate as [args [Hcreate Hargs]].
  assert (Hex : snd (useExistingDocuments this w (filter exists_ statuses))
                = Resolved [VArray (map existing_document (filter exists_ statuses))]).
  { rewrite useExistingDocuments_state.
    destruct Hexisting as [->|[Hproceed [u' Hadmin]]]; [reflexivity|].
    destruct (filter exists_ statuses) as [|doc existing]; [reflexivity|].
    now rewrite Hproceed, Hadmin. }
  assert (Hjoin : snd (onStatuses this w files statuses) =
                  Return (Resolved (map existing_document (filter exists_ statuses)
                                    ++ map VDocument docs))).
  { rewrite onStatuses_state, Hnew, Hcreate, Hex.
    unfold when. cbn [first_rejection all_resolved map when_value].
    unfold mergeDocuments. now rewrite Hargs. }
  rewrite (mapDocuments_finalizes this w files statuses _ Hresp Hjoin).
  cbn [fst snd]. split; [reflexivity|].
  cbn [app map_objects_on]. rewrite !map_objects_on_app, onStatuses_quiet. cbn [app].
  destruct (map existing_document (filter exists_ statuses) ++ map VDocument docs)
    as [|d documents] eqn:Hdocs.
  - reflexivity.
  - rewrite refreshPermissionsAndMap_nonempty by discriminate.
    rewrite Hrefresh. reflexivity.
Qed.

Lemma successful_run_witness :
  snd (mapDocuments control
         (world_of [mkStatus "B" false no_attrs; mkStatus "A" true attrsA]
                   Proceed (Resolved tt) saves (Resolved tt))
         [fileA; fileB]) = Resolved [VUndefined] /\
  map_objects_on OnViewModel
    (fst (mapDocuments control
            (world_of [mkStatus "B" false no_attrs; mkStatus "A" true attrsA]
                      Proceed (Resolved tt) saves (Resolved tt))
            [fileA; fileB]))
  = [map existing_document
         (filter exists_ [mkStatus "B" false no_attrs; mkStatus "A" true attrsA])
     ++ map VDocument [saved (instance_of fileB)]].
Proof.
  apply (successful_run control
           (world_of [mkStatus "B" false no_attrs; mkStatus "A" true attrsA]
                     Proceed (Resolved tt) saves (Resolved tt))
           [fileA; fileB] [mkStatus "B" false no_attrs; mkStatus "A" true attrsA]
           [fileB] [saved (instance_of fileB)]).
  - reflexivity.
  - reflexivity.
  - repeat constructor.
  - right. split; [reflexivity | now exists tt].
  - now exists tt.
Defined.

(** X13: when every file already exists and the user proceeds, the run posts
    the existence query, then the admin grant for all the ids, and asks for
    the permission refresh only if the grant succeeds; nothing is saved and
    nothing is dispatched on the parent instance. *)
Theorem proceed_on_existing (this : ViewModel) (w : World)
    (files : list File) (statuses : list Status) :
  documents_exist w (map id files) = Resolved statuses ->
  statuses <> [] ->
  (forall status, In status statuses -> exists_ status = true) ->
  confirm w (List.length statuses) = Proceed ->
  filter is_network (fst (mapDocuments this w files)) =
    Post documents_exist_url (map id files)
      :: Post make_admin_url (map gdrive_id statuses)
      :: match make_admin w (map gdrive_id statuses) with
         | Resolved _ => [RefreshPermissions]
         | _ => []
         end /\
  filter is_save (fst (mapDocuments this w files)) = [] /\
  filter (is_dispatch_on OnParentInstance) (fst (mapDocuments this w files)) = [].
Proof.
  intros Hresp Hne Hall Hproceed.
  destruct (all_exist statuses Hall) as [Hmissing Hexisting].
  assert (Hjoin : snd (onStatuses this w files statuses) =
                  Return match make_admin w (map gdrive_id statuses) with
                         | Resolved _ => Resolved (map existing_document statuses)
                         | _ => Pending
                         end).
  { rewrite onStatuses_state, Hmissing, Hexisting, useExistingDocuments_state.
    destruct statuses as [|doc statuses]; [congruence|].
    rewrite Hproceed. cbn [map createDocuments List.length Nat.eqb snd].
    destruct (make_admin w _); try reflexivity.
    unfold when, mergeDocuments. cbn. now rewrite app_nil_r. }
  assert (Htrace : fst (useExistingDocuments this w statuses) =
                   [Confirm (List.length statuses)
                            (if 1 <? List.length statuses then "files are" else "file is")
                            (parentInstance this);
                    Post make_admin_url (map gdrive_id statuses)]).
  { rewrite useExistingDocuments_trace.
    destruct statuses as [|doc statuses]; [congruence|]. now rewrite Hproceed. }
  assert (Hsplit : forall f,
             filter f (fst (mapDocuments this w files)) =
             filter f [Post documents_exist_url (map id files)]
             ++ filter f (fst (useExistingDocuments this w statuses))
             ++ filter f match make_admin w (map gdrive_id statuses) with
                         | Resolved _ =>
                             refreshPermissionsAndMap w (map existing_document statuses)
                         | _ => []
                         end).
  { intros f. rewrite (mapDocuments_filter f this w files statuses Hresp).
    rewrite Hmissing, Hexisting, Hjoin. cbn [map createDocuments List.length Nat.eqb fst filter app].
    destruct (make_admin w _); reflexivity. }
  assert (Hdocs : map existing_document statuses <> [])
    by (destruct statuses; [congruence|discriminate]).
  rewrite !Hsplit, Htrace. repeat split.
  - cbn [filter is_network app]. destruct (make_admin w _); try reflexivity.
    rewrite refreshPermissionsAndMap_nonempty by assumption.
    destruct (refreshPermissions w); reflexivity.
  - cbn [filter is_save app]. destruct (make_admin w _); try reflexivity.
    now apply refreshPermissionsAndMap_filter.
  - cbn [filter is_dispatch_on app]. destruct (make_admin w _); try reflexivity.
    now apply refreshPermissionsAndMap_filter.
Qed.

Lemma proceed_on_existing_witness :
  filter is_network
    (fst (mapDocuments control
            (world_of [mkStatus "A" true attrsA; mkStatus "B" true attrsB]
                      Proceed (Resolved tt) saves (Resolved tt))
            [fileA; fileB]))
  = [Post documents_exist_url ["A"; "B"]; Post make_admin_url ["A"; "B"];
     RefreshPermissions].
Proof.
  apply (proceed_on_existing control
           (world_of [mkStatus "A" true attrsA; mkStatus "B" true attrsB]
                     Proceed (Resolved tt) saves (Resolved tt))
           [fileA; fileB] [mkStatus "A" true attrsA; mkStatus "B" true attrsB]).
  - reflexivity.
  - discriminate.
  - intros status [<-|[<-|[]]]; reflexivity.
  - reflexivity.
Defined.

(** ** The caller *)

Lemma run_effects_FromRun (log : trace) : run_effects (map FromRun log) = log.
Proof. induction log as [|e log IH]; simpl; now rewrite ?IH. Qed.

Lemma mapDocuments_starts this w files :
  exists log, fst (mapDocuments this w files)
              = Post documents_exist_url (map id files) :: log.
Proof.
  unfold mapDocuments, checkDocumentsExist. cbv zeta.
  destruct (documents_exist w (map id files)) as [|statuses|e]; cbn [fst app]; eauto.
  destruct (onStatuses this w files statuses) as [log1 [[|documents|e]|e]];
    cbn [fst app]; eauto.
Qed.

(** X14: [openPicker] runs the pipeline exactly when the picker hands over
    files, and then with the effects of [mapDocuments] on those files,
    starting with the existence query; it dispatches the cancel event
    exactly when the picker is dismissed.  Its own promise does not wait
    for the run and never reports a failure of the run: it is resolved as
    soon as files are picked, and can only be rejected by a dismissed
    picker. *)
Theorem openPicker_outcome (this : ViewModel) (w : World)
    (picked : outcome (list File)) :
  run_effects (fst (openPicker this w picked)) =
    match picked with
    | Resolved files => fst (mapDocuments this w files)
    | _ => []
    end /\
  (run_effects (fst (openPicker this w picked)) <> [] <->
   exists files, picked = Resolved files) /\
  (In DispatchCancel (fst (openPicker this w picked)) <->
   exists e, picked = Rejected e) /\
  (forall files, picked = Resolved files ->
     snd (openPicker this w picked) = StResolved) /\
  (snd (openPicker this w picked) = StRejected ->
   (exists e, picked = Rejected e) /\ then_catches w = false).
Proof.
  assert (Hrun : run_effects (fst (openPicker this w picked)) =
                 match picked with
                 | Resolved files => fst (mapDocuments this w files)
                 | _ => []
                 end).
  { destruct picked as [|files|e]; try reflexivity.
    unfold openPicker. destruct (mapDocuments this w files) as [log dfd].
    cbn [fst run_effects]. apply run_effects_FromRun. }
  split; [exact Hrun|]. rewrite Hrun. split; [|split; [|split]].
  - destruct picked as [|files|e]; split; try congruence.
    + intros [files H]. discriminate.
    + intros _. now exists files.
    + intros _. destruct (mapDocuments_starts this w files) as [log ->]. discriminate.
    + intros [files H]. discriminate.
  - destruct picked as [|files|e]; unfold openPicker.
    + cbn [fst]. split; [intros [H|[]]; discriminate | intros [e H]; discriminate].
    + destruct (mapDocuments this w files) as [log dfd]. cbn [fst]. split.
      * intros H. apply in_inv in H as [H|H]; [discriminate|].
        apply in_map_iff in H as [x [H _]]. discriminate.
      * intros [e H]. discriminate.
    + cbn [fst]. split; [eauto | intros _; right; now left].
  - intros files ->. unfold openPicker.
    now destruct (mapDocuments this w files).
  - destruct picked as [|files|e]; unfold openPicker.
    + discriminate.
    + destruct (mapDocuments this w files). discriminate.
    + cbn [snd]. destruct (then_catches w); [discriminate|]. eauto.
Qed.

(** * The mapped-controls popover *)

Lemma replace_attr_frame type items vm :
  instanceId (replace_attr type items vm) = instanceId vm /\
  queries (replace_attr type items vm) = queries vm /\
  isLoading (replace_attr type items vm) = isLoading vm.
Proof. destruct type; repeat split. Qed.

Lemma replace_attr_set_isLoading type items flag vm :
  replace_attr type items (set_isLoading flag vm) =
  set_isLoading flag (replace_attr type items vm).
Proof. destruct type; reflexivity. Qed.

Lemma setItems_from_frame (responseArr : list ResponseItem) : forall i vm,
  instanceId (fst (setItems_from i responseArr vm)) = instanceId vm /\
  queries (fst (setItems_from i responseArr vm)) = queries vm /\
  isLoading (fst (setItems_from i responseArr vm)) = isLoading vm.
Proof.
  induction responseArr as [|item rest IH]; intros i vm; simpl; [repeat split|].
  destruct (nth_error (queries vm) i) as [type|]; [|repeat split].
  destruct (IH (S i) (replace_attr type (map revision_content (Snapshot_values item)) vm))
    as [H1 [H2 H3]].
  destruct (replace_attr_frame type (map revision_content (Snapshot_values item)) vm)
    as [F1 [F2 F3]].
  repeat split; congruence.
Qed.

Lemma setItems_from_returns (responseArr : list ResponseItem) : forall i vm,
  i <= List.length (queries vm) ->
  (snd (setItems_from i responseArr vm) = Return tt <->
   i + List.length responseArr <= List.length (queries vm)) /\
  (snd (setItems_from i responseArr vm) = Return tt \/
   snd (setItems_from i responseArr vm) = Throw TypeError) /\
  fst (setItems_from i responseArr vm) =
    fst (setItems_from i (firstn (List.length (queries vm) - i) responseArr) vm).
Proof.
  induction responseArr as [|item rest IH]; intros i vm Hi.
  - simpl. rewrite firstn_nil. repeat split; auto. intros _. lia.
  - cbn [setItems_from List.length].
    destruct (nth_error (queries vm) i) as [type|] eqn:Hnth.
    + assert (Hlt : i < List.length (queries vm))
        by (apply nth_error_Some; congruence).
      set (vm' := replace_attr type (map revision_content (Snapshot_values item)) vm).
      assert (Hq : queries vm' = queries vm) by apply replace_attr_frame.
      destruct (IH (S i) vm') as [Hret [Hcases Hfirst]]; [rewrite Hq; lia|].
      rewrite Hq in *. split; [|split].
      * rewrite Hret. lia.
      * exact Hcases.
      * replace (List.length (queries vm) - i)
          with (S (List.length (queries vm) - S i)) by lia.
        cbn [firstn setItems_from]. rewrite Hnth. fold vm'. exact Hfirst.
    + assert (Hge : List.length (queries vm) <= i) by now apply nth_error_None.
      replace (List.length (queries vm) - i) with 0 by lia.
      cbn. split; [|split]; auto.
      split; [discriminate | lia].
Qed.

(** X17: [setItems] completes exactly when the answer has no more entries than
    there are queries; otherwise it throws a TypeError, after it has
    replaced the lists of the entries that do have a query.  In both cases
    it leaves the instance id, the queries and the loading flag alone. *)
Theorem setItems_bounds (responseArr : list ResponseItem) (vm : Popover) :
  (snd (setItems responseArr vm) = Return tt <->
   List.length responseArr <= List.length (queries vm)) /\
  (List.length (queries vm) < List.length responseArr ->
   snd (setItems responseArr vm) = Throw TypeError) /\
  fst (setItems responseArr vm) =
    fst (setItems (firstn (List.length (queries vm)) responseArr) vm) /\
  instanceId (fst (setItems responseArr vm)) = instanceId vm /\
  queries (fst (setItems responseArr vm)) = queries vm /\
  isLoading (fst (setItems responseArr vm)) = isLoading vm.
Proof.
  unfold setItems.
  destruct (setItems_from_returns responseArr 0 vm) as [Hret [Hcases Hfirst]]; [lia|].
  split; [exact Hret|]. split; [|split].
  - intros Hlong. destruct Hcases as [H|H]; [|exact H].
    apply Hret in H. simpl in H. lia.
  - now rewrite Nat.sub_0_r in Hfirst.
  - apply setItems_from_frame.
Qed.

Lemma setItems_bounds_witness :
  snd (setItems [mkItem []; mkItem []; mkItem []]
                (mkPopover 7 default_queries [] [] false)) = Throw TypeError.
Proof.
  apply (setItems_bounds [mkItem []; mkItem []; mkItem []]
           (mkPopover 7 default_queries [] [] false)).
  simpl. lia.
Defined.

(** X18: with the default queries, [setItems] puts the contents of the first
    entry of the answer into [objectives] and those of the second into
    [regulations]; a list whose entry is missing from the answer keeps its
    former items. *)
Theorem setItems_default (responseArr : list ResponseItem) (vm : Popover) :
  queries vm = default_queries ->
  objectives (fst (setItems responseArr vm)) =
    match responseArr with
    | first :: _ => contents first
    | [] => objectives vm
    end /\
  regulations (fst (setItems responseArr vm)) =
    match responseArr with
    | _ :: second :: _ => contents second
    | _ => regulations vm
    end.
Proof.
  intros Hq. unfold setItems.
  destruct responseArr as [|first [|second [|third rest]]]; cbn [setItems_from];
    [now split|..]; rewrite Hq; cbn; rewrite ?Hq; cbn; now split.
Qed.

Lemma setItems_default_witness :
  objectives (fst (setItems [mkItem [mkValue "objective 1"]]
                            (mkPopover 7 default_queries ["old"] ["kept"] false)))
    = ["objective 1"] /\
  regulations (fst (setItems [mkItem [mkValue "objective 1"]]
                             (mkPopover 7 default_queries ["old"] ["kept"] false)))
    = ["kept"].
Proof.
  apply (setItems_default [mkItem [mkValue "objective 1"]]
           (mkPopover 7 default_queries ["old"] ["kept"] false)).
  reflexivity.
Defined.

(** X19: with the default queries, [loadItems] falls back to empty lists both
    when there is no instance id, in which case no request is made and the
    loading flag is not touched, and when the request fails, in which case
    a warning is logged and the loading flag ends cleared: items of an
    earlier load never survive. *)
Theorem loadItems_fallback (makeRequest : nat -> outcome (list ResponseItem))
    (vm : Popover) :
  queries vm = default_queries ->
  (instanceId vm = 0 ->
   loadItems makeRequest vm =
     ([], (mkPopover 0 default_queries [] [] (isLoading vm), Return tt))) /\
  (instanceId vm <> 0 ->
   forall e, makeRequest (instanceId vm) = Rejected e ->
   loadItems makeRequest vm =
     ([MakeRequest (instanceId vm); ConsoleWarn],
      (mkPopover (instanceId vm) default_queries [] [] false, Return tt))).
Proof.
  intros Hq. unfold loadItems. cbv zeta. split.
  - intros Hid. rewrite Hid. cbn [Nat.eqb].
    unfold setItems, defaultResponseArr. cbn [setItems_from].
    rewrite Hq. cbn. rewrite Hq, Hid. reflexivity.
  - intros Hid e Hreq. apply Nat.eqb_neq in Hid. rewrite Hid, Hreq.
    unfold setItems, defaultResponseArr. cbn [setItems_from].
    cbn. rewrite Hq. cbn. rewrite Hq. reflexivity.
Qed.

Lemma loadItems_fallback_witness :
  loadItems (fun _ => Rejected (AjaxFailure "/query"))
            (mkPopover 7 default_queries ["old"] ["old too"] false)
  = ([MakeRequest 7; ConsoleWarn],
     (mkPopover 7 default_queries [] [] false, Return tt)).
Proof.
  destruct (loadItems_fallback (fun _ => Rejected (AjaxFailure "/query"))
              (mkPopover 7 default_queries ["old"] ["old too"] false))
    as [_ Hfailed].
  - reflexivity.
  - apply (Hfailed ltac:(discriminate) (AjaxFailure "/query")). reflexivity.
Defined.

(** X20: for an instance id other than 0, [loadItems] makes one request, for
    that id.  While the request is pending the loading flag is set and the
    lists are unchanged; once it is answered with at most one entry per
    query, the lists are those of [setItems] on the answer and the flag is
    cleared. *)
Theorem loadItems_request (makeRequest : nat -> outcome (list ResponseItem))
    (vm : Popover) :
  instanceId vm <> 0 ->
  (exists log, fst (loadItems makeRequest vm) = MakeRequest (instanceId vm) :: log /\
               forall id, ~ In (MakeRequest id) log) /\
  (makeRequest (instanceId vm) = Pending ->
   snd (loadItems makeRequest vm) = (set_isLoading true vm, Return tt)) /\
  (forall responseArr,
     makeRequest (instanceId vm) = Resolved responseArr ->
     List.length responseArr <= List.length (queries vm) ->
     snd (loadItems makeRequest vm) =
       (set_isLoading false (fst (setItems responseArr vm)), Return tt)).
Proof.
  intros Hid. apply Nat.eqb_neq in Hid. unfold loadItems. cbv zeta. rewrite Hid.
  split; [|split].
  - destruct (makeRequest (instanceId vm)); eexists; (split; [reflexivity|]);
      intros id' Hin; simpl in Hin; intuition discriminate.
  - intros ->. reflexivity.
  - intros responseArr -> Hlen. cbn [snd].
    assert (Hret : snd (setItems responseArr (set_isLoading true vm)) = Return tt)
      by now apply setItems_bounds.
    assert (Hsame : forall r i v flag,
               fst (setItems_from i r (set_isLoading flag v)) =
               set_isLoading flag (fst (setItems_from i r v))).
    { induction r as [|item r IH]; intros i v flag; [reflexivity|].
      cbn [setItems_from]. change (queries (set_isLoading flag v)) with (queries v).
      destruct (nth_error (queries v) i) as [type|]; [|reflexivity].
      rewrite replace_attr_set_isLoading. apply IH. }
    destruct (setItems responseArr (set_isLoading true vm)) as [vm' c] eqn:Hset.
    cbn [snd] in Hret. subst c. f_equal.
    change vm' with (fst (vm', Return tt)). rewrite <- Hset.
    unfold setItems. rewrite Hsame. reflexivity.
Qed.

Lemma loadItems_request_witness :
  snd (loadItems (fun _ => Resolved [mkItem [mkValue "o"]; mkItem [mkValue "r"]])
                 (mkPopover 7 default_queries [] [] false))
  = (set_isLoading false
       (fst (setItems [mkItem [mkValue "o"]; mkItem [mkValue "r"]]
                      (mkPopover 7 default_queries [] [] false))),
     Return tt).
Proof.
  destruct (loadItems_request
              (fun _ => Resolved [mkItem [mkValue "o"]; mkItem [mkValue "r"]])
              (mkPopover 7 default_queries [] [] false))
    as [_ [_ Hanswered]].
  - discriminate.
  - apply Hanswered; [reflexivity | simpl; lia].
Defined.

(** X21: for an instance id other than 0, the loading flag set by [loadItems]
    ends cleared exactly when the request has settled and its callback has
    completed: it stays set while the request is pending, and also when
    the answer has more entries than there are queries, because the
    TypeError of [setItems] keeps the [always] callback from running. *)
Theorem loadItems_loading_flag (makeRequest : nat -> outcome (list ResponseItem))
    (vm : Popover) :
  instanceId vm <> 0 ->
  (isLoading (fst (snd (loadItems makeRequest vm))) = false <->
   makeRequest (instanceId vm) <> Pending /\
   snd (snd (loadItems makeRequest vm)) = Return tt) /\
  (forall responseArr,
     makeRequest (instanceId vm) = Resolved responseArr ->
     List.length (queries vm) < List.length responseArr ->
     isLoading (fst (snd (loadItems makeRequest vm))) = true /\
     snd (snd (loadItems makeRequest vm)) = Throw TypeError).
Proof.
  intros Hid. apply Nat.eqb_neq in Hid. unfold loadItems. cbv zeta. rewrite Hid.
  assert (Hflag : forall r, isLoading (fst (setItems r (set_isLoading true vm))) = true)
    by (intros r; unfold setItems; now rewrite (proj2 (proj2 (setItems_from_frame r 0 _)))).
  split.
  - destruct (makeRequest (instanceId vm)) as [|responseArr|e]; cbn [snd fst].
    + split; [discriminate | intros [H _]; congruence].
    + specialize (Hflag responseArr).
      destruct (setItems responseArr (set_isLoading true vm)) as [vm' [[]|e']];
        cbn [fst snd] in *.
      * split; [intros _; split; [discriminate | reflexivity] | reflexivity].
      * split; [congruence | intros [_ H]; discriminate].
    + specialize (Hflag defaultResponseArr).
      destruct (setItems defaultResponseArr (set_isLoading true vm)) as [vm' [[]|e']];
        cbn [fst snd] in *.
      * split; [intros _; split; [discriminate | reflexivity] | reflexivity].
      * split; [congruence | intros [_ H]; discriminate].
  - intros responseArr -> Hlong. cbn [snd].
    specialize (Hflag responseArr).
    assert (Hthrow : snd (setItems responseArr (set_isLoading true vm)) = Throw TypeError).
    { unfold setItems.
      destruct (setItems_from_returns responseArr 0 (set_isLoading true vm))
        as [Hret [[H|H] _]]; [cbn; lia| |exact H].
      apply Hret in H. cbn in H. lia. }
    destruct (setItems responseArr (set_isLoading true vm)) as [vm' c].
    cbn [fst snd] in *. subst c. now split.
Qed.

Lemma loadItems_loading_flag_witness :
  isLoading
    (fst (snd (loadItems
                 (fun _ => Resolved [mkItem []; mkItem []; mkItem []])
                 (mkPopover 7 default_queries [] [] false)))) = true /\
  snd (snd (loadItems
              (fun _ => Resolved [mkItem []; mkItem []; mkItem []])
              (mkPopover 7 default_queries [] [] false))) = Throw TypeError.
Proof.
  destruct (loadItems_loading_flag
              (fun _ => Resolved [mkItem []; mkItem []; mkItem []])
              (mkPopover 7 default_queries [] [] false))
    as [_ Hlong].
  - discriminate.
  - apply (Hlong [mkItem []; mkItem []; mkItem []]); [reflexivity | simpl; lia].
Defined.

(** * Runs with a declined or unanswered prompt *)

Lemma createDocuments_returns w (newFiles : list File) :
  exists created,
    snd (createDocuments w (map Some newFiles)) = Return created /\
    (forall e, created = Rejected e ->
       exists file, In file newFiles /\ save w (instance_of file) = Rejected e).
Proof.
  destruct newFiles as [|file newFiles].
  - exists (Resolved [VArray []]). split; [reflexivity | discriminate].
  - rewrite createDocuments_defined by discriminate. cbv zeta. cbn [snd].
    eexists. split; [reflexivity|].
    intros e Hwhen. apply when_rejected_in in Hwhen.
    apply in_map_iff in Hwhen as [instance [Hsave Hin]].
    apply in_map_iff in Hin as [f [<- Hin]].
    exists f. split; [assumption | now apply save_promise_rejected].
Qed.

Lemma run_saves this w files statuses newFiles :
  documents_exist w (map id files) = Resolved statuses ->
  map (lookup files) (missing statuses) = map Some newFiles ->
  filter is_save (fst (mapDocuments this w files)) = map Save (map instance_of newFiles).
Proof.
  intros Hresp Hnew.
  rewrite (mapDocuments_filter is_save this w files statuses Hresp).
  rewrite useExistingDocuments_filter by reflexivity.
  assert (Hlast : filter is_save
                    match snd (onStatuses this w files statuses) with
                    | Return (Resolved documents) => refreshPermissionsAndMap w documents
                    | _ => []
                    end = []).
  { destruct (snd (onStatuses this w files statuses)) as [[|documents|e]|e];
      try reflexivity. now apply refreshPermissionsAndMap_filter. }
  rewrite Hlast, Hnew. cbn [filter is_save app]. rewrite app_nil_r.
  destruct newFiles as [|file newFiles]; [reflexivity|].
  rewrite createDocuments_trace by discriminate.
  rewrite defined_prefix_defined. cbn [filter is_save]. rewrite filter_app.
  assert (Hkeep : forall instances, filter is_save (map Save instances) = map Save instances)
    by (induction instances as [|i instances IH]; simpl; now rewrite ?IH).
  rewrite Hkeep.
  destruct (snd (createDocuments w (map Some (file :: newFiles)))) as [[|args|e]|e];
    cbn [filter is_save]; now rewrite app_nil_r.
Qed.

(** X15: declining the prompt drops the existing documents only.  When
    the new-files list holds no [undefined] entry, the user declines, and
    the saves of the new files and the permission refresh succeed, every
    new file is saved, the promise of the run is resolved and MAP_OBJECTS
    is dispatched exactly once on the view model, carrying the saved
    documents alone.  Nothing is said on which of the two, resolution and
    dispatch, comes first. *)
Theorem decline_keeps_new_documents (this : ViewModel) (w : World)
    (files : list File) (statuses : list Status)
    (newFiles : list File) (docs : list Document) :
  documents_exist w (map id files) = Resolved statuses ->
  fst (partition_statuses files statuses) = map Some newFiles ->
  Forall2 (fun file doc => save w (instance_of file) = Resolved doc) newFiles docs ->
  filter exists_ statuses <> [] ->
  confirm w (List.length (filter exists_ statuses)) = Cancel ->
  (exists u, refreshPermissions w = Resolved u) ->
  snd (mapDocuments this w files) = Resolved [VUndefined] /\
  filter is_save (fst (mapDocuments this w files)) = map Save (map instance_of newFiles) /\
  map_objects_on OnViewModel (fst (mapDocuments this w files)) = [map VDocument docs].
Proof.
  intros Hresp Hnew Hall Hsome Hcancel [u Hrefresh]. apply partition_new_files in Hnew.
  assert (Hcreate : exists args,
             snd (createDocuments w (map Some newFiles)) = Return (Resolved args) /\
             makeArray (when_value args) = map VDocument docs).
  { destruct newFiles as [|file newFiles].
    - inversion Hall. exists [VArray []]. now split.
    - rewrite createDocuments_defined by discriminate. cbv zeta. cbn [snd].
      exists (map VDocument docs). split; [|apply makeArray_documents].
      f_equal. apply when_saved; [discriminate|].
      clear -Hall. induction Hall; simpl; constructor; auto. }
  destruct Hcreate as [args [Hcreate Hargs]].
  assert (Hjoin : snd (onStatuses this w files statuses)
                  = Return (Resolved (map VDocument docs))).
  { rewrite onStatuses_state, Hnew, Hcreate, useExistingDocuments_state.
    destruct (filter exists_ statuses) as [|doc existing]; [congruence|].
    rewrite Hcancel. unfold when. cbn [first_rejection all_resolved map when_value].
    unfold mergeDocuments. now rewrite Hargs. }
  split; [|split].
  - now rewrite (mapDocuments_finalizes this w files statuses _ Hresp Hjoin).
  - now apply (run_saves this w files statuses).
  - rewrite (mapDocuments_finalizes this w files statuses _ Hresp Hjoin).
    cbn [fst app map_objects_on].
    rewrite !map_objects_on_app, onStatuses_quiet. cbn [app].
    destruct (map VDocument docs) as [|d documents] eqn:Hdocs; [reflexivity|].
    rewrite refreshPermissionsAndMap_nonempty by discriminate.
    now rewrite Hrefresh.
Qed.

Lemma decline_keeps_new_documents_witness :
  snd (mapDocuments control
         (world_of [mkStatus "A" true attrsA; mkStatus "B" false no_attrs]
                   Cancel (Resolved tt) saves (Resolved tt))
         [fileA; fileB]) = Resolved [VUndefined] /\
  filter is_save
    (fst (mapDocuments control
            (world_of [mkStatus "A" true attrsA; mkStatus "B" false no_attrs]
                      Cancel (Resolved tt) saves (Resolved tt))
            [fileA; fileB])) = map Save (map instance_of [fileB]) /\
  map_objects_on OnViewModel
    (fst (mapDocuments control
            (world_of [mkStatus "A" true attrsA; mkStatus "B" false no_attrs]
                      Cancel (Resolved tt) saves (Resolved tt))
            [fileA; fileB])) = [map VDocument [saved (instance_of fileB)]].
Proof.
  apply (decline_keeps_new_documents control
           (world_of [mkStatus "A" true attrsA; mkStatus "B" false no_attrs]
                     Cancel (Resolved tt) saves (Resolved tt))
           [fileA; fileB] [mkStatus "A" true attrsA; mkStatus "B" false no_attrs]
           [fileB] [saved (instance_of fileB)]).
  - reflexivity.
  - reflexivity.
  - repeat constructor.
  - discriminate.
  - reflexivity.
  - now exists tt.
Defined.

(** X16: the two branches start together.  When the new-files list holds
    no [undefined] entry and the prompt is never answered, the new files
    are saved all the same, but the run does not go on: as long as no save
    fails its promise stays pending, the permissions are not refreshed and
    MAP_OBJECTS is not dispatched. *)
Theorem unanswered_prompt_blocks_run (this : ViewModel) (w : World)
    (files : list File) (statuses : list Status) (newFiles : list File) :
  documents_exist w (map id files) = Resolved statuses ->
  fst (partition_statuses files statuses) = map Some newFiles ->
  filter exists_ statuses <> [] ->
  confirm w (List.length (filter exists_ statuses)) = Unanswered ->
  (forall file e, In file newFiles -> save w (instance_of file) <> Rejected e) ->
  snd (mapDocuments this w files) = Pending /\
  filter is_save (fst (mapDocuments this w files)) = map Save (map instance_of newFiles) /\
  filter is_refresh (fst (mapDocuments this w files)) = [] /\
  forall on, map_objects_on on (fst (mapDocuments this w files)) = [].
Proof.
  intros Hresp Hnew Hsome Hwait Hsaves. apply partition_new_files in Hnew.
  destruct (createDocuments_returns w newFiles) as [created [Hcreate Hrej]].
  assert (Hjoin : snd (onStatuses this w files statuses) = Return Pending).
  { rewrite onStatuses_state, Hnew, Hcreate, useExistingDocuments_state.
    destruct (filter exists_ statuses) as [|doc existing]; [congruence|].
    rewrite Hwait. destruct created as [|args|e]; try reflexivity.
    destruct (Hrej e eq_refl) as [file [Hin Hsave]].
    now destruct (Hsaves file e Hin). }
  assert (Hrun : mapDocuments this w files =
                 (Post documents_exist_url (map id files)
                    :: fst (onStatuses this w files statuses), Pending)).
  { unfold mapDocuments, checkDocumentsExist. cbv zeta. rewrite Hresp.
    destruct (onStatuses this w files statuses) as [log1 joined].
    cbn [fst snd] in *. subst joined. reflexivity. }
  split; [now rewrite Hrun|]. split; [now apply (run_saves this w files statuses)|].
  rewrite Hrun. cbn [fst]. rewrite onStatuses_trace. split.
  - cbn [filter is_refresh]. rewrite filter_app.
    now rewrite useExistingDocuments_filter, createDocuments_filter by reflexivity.
  - intros on. cbn [map_objects_on].
    now rewrite map_objects_on_app, useExistingDocuments_quiet, createDocuments_quiet.
Qed.

Lemma unanswered_prompt_blocks_run_witness :
  snd (mapDocuments control
         (world_of [mkStatus "A" true attrsA; mkStatus "B" false no_attrs]
                   Unanswered (Resolved tt) saves (Resolved tt))
         [fileA; fileB]) = Pending /\
  filter is_save
    (fst (mapDocuments control
            (world_of [mkStatus "A" true attrsA; mkStatus "B" false no_attrs]
                      Unanswered (Resolved tt) saves (Resolved tt))
            [fileA; fileB])) = map Save (map instance_of [fileB]) /\
  filter is_refresh
    (fst (mapDocuments control
            (world_of [mkStatus "A" true attrsA; mkStatus "B" false no_attrs]
                      Unanswered (Resolved tt) saves (Resolved tt))
            [fileA; fileB])) = [] /\
  forall on,
    map_objects_on on
      (fst (mapDocuments control
              (world_of [mkStatus "A" true attrsA; mkStatus "B" false no_attrs]
                        Unanswered (Resolved tt) saves (Resolved tt))
              [fileA; fileB])) = [].
Proof.
  apply (unanswered_prompt_blocks_run control
           (world_of [mkStatus "A" true attrsA; mkStatus "B" false no_attrs]
                     Unanswered (Resolved tt) saves (Resolved tt))
           [fileA; fileB] [mkStatus "A" true attrsA; mkStatus "B" false no_attrs]
           [fileB]).
  - reflexivity.
  - reflexivity.
  - discriminate.
  - reflexivity.
  - intros file e _. discriminate.
Defined.
